(** * Sense_and_Nonsense: the ITPC pipeline of [ITPC_Data_Final_25.py]

    A shallow embedding of [EEGPhaseAnalysis] (cell parsing, trial grouping,
    inter-trial phase coherence) and the properties its specification states.

    Numbers.  A Python [float] is modelled by [pyfloat]: the IEEE special
    values (NaN, the two infinities, the two zeros) are kept apart, and a
    finite non-zero double is an exact real.  Rounding, overflow and
    underflow are not modelled: arithmetic on finite values is the
    arithmetic of [R].  Every statement below about a numeric result is a
    statement in that exact arithmetic. *)

From Stdlib Require Import Reals Lra Lia ZArith List String Ascii Bool.
From Stdlib Require Import DecimalString FinFun Permutation.
Import ListNotations.

Set Warnings "-register-all".

(* ===================================================================== *)
(** * Python floats and the C library functions the program calls         *)
(* ===================================================================== *)

Module PyFloat.
Local Open Scope R_scope.

Inductive pyfloat : Type :=
| NaN
| Inf (neg : bool)
| Zero (neg : bool)
| Num (r : R).          (* a finite double other than a zero *)

Definition Rzerob (r : R) : bool := if Req_dec_T r 0 then true else false.
Definition Rltb (a b : R) : bool := if Rlt_dec a b then true else false.
Definition Rleb (a b : R) : bool := if Rle_dec a b then true else false.

(** A finite result: a zero of the given sign when the real is 0. *)
Definition mk_fin (neg0 : bool) (r : R) : pyfloat :=
  if Rzerob r then Zero neg0 else Num r.

Definition of_R (r : R) : pyfloat := mk_fin false r.
Definition of_Z (z : Z) : pyfloat := if (z =? 0)%Z then Zero false else Num (IZR z).
Definition of_nat (n : nat) : pyfloat := of_Z (Z.of_nat n).

Definition fin_val (x : pyfloat) : option R :=
  match x with
  | Zero _ => Some 0
  | Num r => Some r
  | _ => None
  end.

Definition is_nan (x : pyfloat) : bool := match x with NaN => true | _ => false end.
Definition is_inf (x : pyfloat) : bool := match x with Inf _ => true | _ => false end.
Definition is_finite (x : pyfloat) : bool :=
  match x with Zero _ | Num _ => true | _ => false end.

(** [x == 0.] *)
Definition is_zero (x : pyfloat) : bool :=
  match x with Zero _ => true | Num r => Rzerob r | _ => false end.

Definition signbit (x : pyfloat) : bool :=
  match x with
  | NaN => false
  | Inf s => s
  | Zero s => s
  | Num r => Rltb r 0
  end.

(** [copysign(x, y)]: the magnitude of [x] with the sign bit of [y]. *)
Definition copysign (x y : pyfloat) : pyfloat :=
  match x with
  | NaN => NaN
  | Inf _ => Inf (signbit y)
  | Zero _ => Zero (signbit y)
  | Num r => Num (if signbit y then - Rabs r else Rabs r)
  end.

Definition fneg (x : pyfloat) : pyfloat :=
  match x with
  | NaN => NaN
  | Inf s => Inf (negb s)
  | Zero s => Zero (negb s)
  | Num r => Num (- r)
  end.

Definition fabs (x : pyfloat) : pyfloat :=
  match x with
  | NaN => NaN
  | Inf _ => Inf false
  | Zero _ => Zero false
  | Num r => Num (Rabs r)
  end.

Definition fadd (x y : pyfloat) : pyfloat :=
  match x, y with
  | NaN, _ | _, NaN => NaN
  | Inf s, Inf t => if Bool.eqb s t then Inf s else NaN
  | Inf s, _ => Inf s
  | _, Inf t => Inf t
  | Zero s, Zero t => Zero (s && t)
  | Zero _, Num r => Num r
  | Num r, Zero _ => Num r
  | Num a, Num b => mk_fin false (a + b)
  end.

Definition fsub (x y : pyfloat) : pyfloat := fadd x (fneg y).

Definition fmul (x y : pyfloat) : pyfloat :=
  match x, y with
  | NaN, _ | _, NaN => NaN
  | Inf _, Zero _ | Zero _, Inf _ => NaN
  | Inf s, _ => if is_zero y then NaN else Inf (xorb s (signbit y))
  | _, Inf t => if is_zero x then NaN else Inf (xorb (signbit x) t)
  | Zero s, _ => Zero (xorb s (signbit y))
  | _, Zero t => Zero (xorb (signbit x) t)
  | Num a, Num b => mk_fin (xorb (Rltb a 0) (Rltb b 0)) (a * b)
  end.

Definition fdiv (x y : pyfloat) : pyfloat :=
  match x, y with
  | NaN, _ | _, NaN => NaN
  | Inf _, Inf _ => NaN
  | Inf s, _ => Inf (xorb s (signbit y))
  | _, Inf t => Zero (xorb (signbit x) t)
  | _, Zero t => if is_zero x then NaN else Inf (xorb (signbit x) t)
  | Zero s, Num b => if Rzerob b then NaN else Zero (xorb s (Rltb b 0))
  | Num a, Num b =>
      if Rzerob b then (if Rzerob a then NaN else Inf (Rltb a 0))
      else mk_fin (xorb (Rltb a 0) (Rltb b 0)) (a / b)
  end.

(** [x >= y]; false as soon as an operand is NaN. *)
Definition fge (x y : pyfloat) : bool :=
  match x, y with
  | NaN, _ | _, NaN => false
  | Inf false, _ => true
  | _, Inf true => true
  | Inf true, _ => false
  | _, Inf false => false
  | _, _ =>
      match fin_val x, fin_val y with
      | Some a, Some b => Rleb b a
      | _, _ => false
      end
  end.

Definition fexp (x : pyfloat) : pyfloat :=
  match x with
  | NaN => NaN
  | Inf false => Inf false
  | Inf true => Zero false
  | Zero _ => Num 1
  | Num r => Num (exp r)
  end.

Definition fcos (x : pyfloat) : pyfloat :=
  match x with
  | NaN | Inf _ => NaN
  | Zero _ => Num 1
  | Num r => of_R (cos r)
  end.

Definition fsin (x : pyfloat) : pyfloat :=
  match x with
  | NaN | Inf _ => NaN
  | Zero s => Zero s
  | Num r => of_R (sin r)
  end.

(** [hypot(x, y)]; an infinite operand wins over a NaN (C99 F.9.4.3). *)
Definition hypot (x y : pyfloat) : pyfloat :=
  if is_inf x || is_inf y then Inf false
  else match fin_val x, fin_val y with
       | Some a, Some b => of_R (sqrt (a * a + b * b))
       | _, _ => NaN
       end.

(** The C library's [atan2(y, x)] where CPython calls it: [y] finite and
    not a zero, [x] finite (a zero or not). *)
Definition libm_atan2 (y x : pyfloat) : pyfloat :=
  match fin_val y, fin_val x with
  | Some b, Some a =>
      if Rzerob a then (if Rltb b 0 then Num (- (PI / 2)) else Num (PI / 2))
      else if Rltb 0 a then of_R (atan (b / a))
      else if Rltb b 0 then of_R (atan (b / a) - PI)
      else of_R (atan (b / a) + PI)
  | _, _ => NaN
  end.

(** CPython's [m_atan2] (mathmodule.c) and [c_atan2] (cmathmodule.c): the
    special cases are decided before the C library is called. *)
Definition atan2 (y x : pyfloat) : pyfloat :=
  if is_nan x || is_nan y then NaN
  else if is_inf y then
    if is_inf x then
      if signbit x then copysign (Num (3 * PI / 4)) y   (* atan2(+-inf, -inf) *)
      else copysign (Num (PI / 4)) y                    (* atan2(+-inf, +inf) *)
    else copysign (Num (PI / 2)) y                      (* atan2(+-inf, x) *)
  else if is_inf x || is_zero y then
    if signbit x then copysign (Num PI) y               (* atan2(+-y, -inf), atan2(+-0, -x) *)
    else copysign (Zero false) y                        (* atan2(+-y, +inf), atan2(+-0, +x) *)
  else libm_atan2 y x.

(** ** Complex numbers: a pair of floats *)

Record complex : Type := Complex { real : pyfloat; imag : pyfloat }.

Definition czero : complex := Complex (Zero false) (Zero false).

(** [cmath.phase(z)] *)
Definition phase (z : complex) : pyfloat := atan2 (imag z) (real z).

Definition cadd (a b : complex) : complex :=
  Complex (fadd (real a) (real b)) (fadd (imag a) (imag b)).

(** numpy's complex product: the textbook formula, no special cases. *)
Definition cmul (a b : complex) : complex :=
  Complex (fsub (fmul (real a) (real b)) (fmul (imag a) (imag b)))
          (fadd (fmul (real a) (imag b)) (fmul (imag a) (real b))).

(** numpy's complex quotient (Smith's algorithm, loops and scalar math). *)
Definition cdiv (a b : complex) : complex :=
  let in2r_abs := fabs (real b) in
  let in2i_abs := fabs (imag b) in
  if fge in2r_abs in2i_abs then
    if is_zero in2r_abs && is_zero in2i_abs then
      Complex (fdiv (real a) in2r_abs) (fdiv (imag a) in2r_abs)
    else
      let rat := fdiv (imag b) (real b) in
      let scl := fdiv (Num 1) (fadd (real b) (fmul (imag b) rat)) in
      Complex (fmul (fadd (real a) (fmul (imag a) rat)) scl)
              (fmul (fsub (imag a) (fmul (real a) rat)) scl)
  else
    let rat := fdiv (real b) (imag b) in
    let scl := fdiv (Num 1) (fadd (imag b) (fmul (real b) rat)) in
    Complex (fmul (fadd (fmul (real a) rat) (imag a)) scl)
            (fmul (fsub (fmul (imag a) rat) (real a)) scl).

(** The complex exponential with its special cases (C99 G.6.3.1, numpy's
    [npy_cexp]); the overflow-avoiding scaling of large real parts has no
    counterpart in exact arithmetic. *)
Definition cexp (z : complex) : complex :=
  let r := real z in
  let i := imag z in
  if is_finite r then
    if is_finite i then Complex (fmul (fexp r) (fcos i)) (fmul (fexp r) (fsin i))
    else Complex NaN NaN
  else if is_nan r then
    if is_zero i then z else Complex NaN NaN
  else if signbit r then
    (* r = -inf *)
    if is_finite i then Complex (fmul (fexp r) (fcos i)) (fmul (fexp r) (fsin i))
    else Complex (Zero false) (Zero false)
  else
    (* r = +inf *)
    if is_zero i then Complex r i
    else if is_finite i then Complex (fmul r (fcos i)) (fmul r (fsin i))
    else Complex r NaN.

Definition cabs (z : complex) : pyfloat := hypot (real z) (imag z).

(** [sqrt(x)] *)
Definition fsqrt (x : pyfloat) : pyfloat :=
  match x with
  | NaN => NaN
  | Inf false => Inf false
  | Inf true => NaN
  | Zero s => Zero s
  | Num r => if Rltb r 0 then NaN else Num (sqrt r)
  end.

(** [x <= y]; false as soon as an operand is NaN. *)
Definition fle (x y : pyfloat) : bool := fge y x.

End PyFloat.
Export PyFloat.

(* ===================================================================== *)
(** * Python strings: the [str] methods and the numeric constructors      *)
(* ===================================================================== *)

Module PyStr.
Local Open Scope char_scope.

Definition chars (s : string) : list ascii := list_ascii_of_string s.
Definition str (l : list ascii) : string := string_of_list_ascii l.

Definition mem (c : ascii) (set : list ascii) : bool := existsb (Ascii.eqb c) set.

Fixpoint lstrip_chars (set : list ascii) (l : list ascii) : list ascii :=
  match l with
  | c :: t => if mem c set then lstrip_chars set t else l
  | [] => []
  end.

Definition rstrip_chars (set : list ascii) (l : list ascii) : list ascii :=
  rev (lstrip_chars set (rev l)).

Fixpoint lstrip_by (p : ascii -> bool) (l : list ascii) : list ascii :=
  match l with
  | c :: t => if p c then lstrip_by p t else l
  | [] => []
  end.

Definition rstrip_chars_by (p : ascii -> bool) (l : list ascii) : list ascii :=
  rev (lstrip_by p (rev l)).

(** [s.strip(set)], [s.rstrip(set)], [s.replace(a, b)] for one-character
    [a] and [b], and [c in s]. *)
Definition strip (set : string) (s : string) : string :=
  str (rstrip_chars (chars set) (lstrip_chars (chars set) (chars s))).

Definition rstrip (set : string) (s : string) : string :=
  str (rstrip_chars (chars set) (chars s)).

Definition replace (a b : ascii) (s : string) : string :=
  str (map (fun c => if Ascii.eqb c a then b else c) (chars s)).

Definition contains (c : ascii) (s : string) : bool := mem c (chars s).

(** ** Numeric literals *)

Definition is_digit (c : ascii) : bool :=
  let n := nat_of_ascii c in (48 <=? n)%nat && (n <=? 57)%nat.

Definition digit_val (c : ascii) : Z := Z.of_nat (nat_of_ascii c) - 48.

(** [Py_ISSPACE], with the separators U+001C..U+001F that [float] and
    [complex] turn into spaces beforehand. *)
Definition is_space (c : ascii) : bool :=
  let n := nat_of_ascii c in
  ((9 <=? n)%nat && (n <=? 13)%nat) || ((28 <=? n)%nat && (n <=? 32)%nat).

Definition lower (c : ascii) : ascii :=
  let n := nat_of_ascii c in
  if (65 <=? n)%nat && (n <=? 90)%nat then ascii_of_nat (n + 32) else c.

Fixpoint span (p : ascii -> bool) (l : list ascii) : list ascii * list ascii :=
  match l with
  | c :: t => if p c then let (a, b) := span p t in (c :: a, b) else ([], l)
  | [] => ([], [])
  end.

Fixpoint digits_val (acc : Z) (ds : list ascii) : Z :=
  match ds with
  | d :: t => digits_val (10 * acc + digit_val d) t
  | [] => acc
  end.

(** Case-insensitive prefix test; on success the rest of the input. *)
Fixpoint match_ci (pat : list ascii) (l : list ascii) : option (list ascii) :=
  match pat, l with
  | [], _ => Some l
  | p :: pt, c :: t => if Ascii.eqb (lower c) p then match_ci pt t else None
  | _ :: _, [] => None
  end.

Definition take_sign (l : list ascii) : bool * list ascii :=
  match l with
  | "-" :: t => (true, t)
  | "+" :: t => (false, t)
  | _ => (false, l)
  end.

(** The value of a decimal literal: sign, digit string read as an integer,
    power of ten. *)
Definition dec_value (neg : bool) (mant : Z) (e : Z) : pyfloat :=
  if (mant =? 0)%Z then Zero neg
  else Num ((if neg then -1 else 1) * IZR mant * powerRZ 10 e)%R.

(** [_Py_dg_strtod]: the longest prefix that is a decimal literal
    ([sign] digits [. digits] [e [sign] digits], at least one digit before
    the exponent), and the rest; [None] when nothing converts. *)
Definition dg_strtod (l : list ascii) : option (pyfloat * list ascii) :=
  let (neg, l0) := take_sign l in
  let (ip, l1) := span is_digit l0 in
  let (fp, l2) := match l1 with
                  | "." :: t => span is_digit t
                  | _ => ([], l1)
                  end in
  match ip ++ fp with
  | [] => None
  | ds =>
      let mant := digits_val 0 ds in
      let frac := Z.of_nat (List.length fp) in
      let (ex, l3) :=
        match l2 with
        | c :: t =>
            if Ascii.eqb (lower c) "e" then
              let (eneg, t0) := take_sign t in
              let (ed, t1) := span is_digit t0 in
              match ed with
              | [] => (0%Z, l2)
              | _ => ((if eneg then - digits_val 0 ed else digits_val 0 ed)%Z, t1)
              end
            else (0%Z, l2)
        | [] => (0%Z, l2)
        end in
      Some (dec_value neg mant (ex - frac), l3)
  end.

(** [_Py_parse_inf_or_nan] *)
Definition parse_inf_or_nan (l : list ascii) : option (pyfloat * list ascii) :=
  let (neg, l0) := take_sign l in
  match match_ci (chars "inf") l0 with
  | Some l1 =>
      match match_ci (chars "inity") l1 with
      | Some l2 => Some (Inf neg, l2)
      | None => Some (Inf neg, l1)
      end
  | None =>
      match match_ci (chars "nan") l0 with
      | Some l1 => Some (NaN, l1)
      | None => None
      end
  end.

(** [PyOS_string_to_double] with an end pointer. *)
Definition string_to_double (l : list ascii) : option (pyfloat * list ascii) :=
  match dg_strtod l with
  | Some r => Some r
  | None => parse_inf_or_nan l
  end.

(** [_Py_string_to_number_with_underscores]: an underscore is dropped when
    it stands between two digits and is an error anywhere else. *)
Fixpoint drop_underscores (prev : ascii) (l : list ascii) : option (list ascii) :=
  match l with
  | [] => if Ascii.eqb prev "_" then None else Some []
  | c :: t =>
      if Ascii.eqb c "_" then
        if is_digit prev then drop_underscores c t else None
      else if Ascii.eqb prev "_" && negb (is_digit c) then None
      else option_map (cons c) (drop_underscores c t)
  end.

(** [float(s)] for a string: surrounding white space is removed,
    underscores are checked and dropped, and the whole rest must convert.
    [None] stands for [ValueError]. *)
Definition float_of_str (s : string) : option pyfloat :=
  let l := rstrip_chars_by is_space (lstrip_by is_space (chars s)) in
  match drop_underscores "000" l with
  | Some l' =>
      match string_to_double l' with
      | Some (x, []) => Some x
      | _ => None
      end
  | None => None
  end.

Definition is_j (c : ascii) : bool := Ascii.eqb (lower c) "j".

(** [complex_from_string_inner] (complexobject.c): the forms [<float>],
    [<float>j], [<float><signed-float>j], [<float><sign>j], [<sign>j] and
    [j], optionally in parentheses, white space allowed around them. *)
Definition complex_from_string_inner (l : list ascii) : option complex :=
  let s0 := lstrip_by is_space l in
  let (got_bracket, s1) :=
    match s0 with
    | "(" :: t => (true, lstrip_by is_space t)
    | _ => (false, s0)
    end in
  let body : option (complex * list ascii) :=
    match string_to_double s1 with
    | Some (z, s2) =>
        match s2 with
        | c :: t =>
            if Ascii.eqb c "+" || Ascii.eqb c "-" then
              let (y, s3) :=
                match string_to_double s2 with
                | Some (y, s3) => (y, s3)
                | None => ((if Ascii.eqb c "+" then Num 1 else Num (-1))%R, t)
                end in
              match s3 with
              | j :: s4 => if is_j j then Some (Complex z y, s4) else None
              | [] => None
              end
            else if is_j c then Some (Complex (Zero false) z, t)
            else Some (Complex z (Zero false), s2)
        | [] => Some (Complex z (Zero false), s2)
        end
    | None =>
        let (y, s2) :=
          match s1 with
          | "+" :: t => (Num 1, t)
          | "-" :: t => (Num (-1)%R, t)
          | _ => (Num 1, s1)
          end in
        match s2 with
        | j :: s3 => if is_j j then Some (Complex (Zero false) y, s3) else None
        | [] => None
        end
    end in
  match body with
  | Some (z, s5) =>
      let s6 := lstrip_by is_space s5 in
      if got_bracket then
        match s6 with
        | ")" :: t => match lstrip_by is_space t with [] => Some z | _ => None end
        | _ => None
        end
      else match s6 with [] => Some z | _ => None end
  | None => None
  end.

(** [complex(s)] for a string; [None] stands for [ValueError]. *)
Definition complex_of_str (s : string) : option complex :=
  match drop_underscores "000" (chars s) with
  | Some l => complex_from_string_inner l
  | None => None
  end.

End PyStr.

(* ===================================================================== *)
(** * Python values, exceptions and output                                *)
(* ===================================================================== *)

Module Py.
Import PyStr.

Inductive exn : Type :=
| ValueError | TypeError | AttributeError | OverflowError | KeyError | AxisError.

(** The values a cell can hold. *)
Inductive pyval : Type :=
| VComplex (z : complex)
| VFloat (x : pyfloat)
| VInt (n : Z)
| VBool (b : bool)
| VStr (s : string)
| VList (l : list pyval)
| VTuple (l : list pyval)
| VNone.

(** A Python real number as [parse_complex_value] returns it in second
    place: the [int] literal [0] or a [float]. *)
Inductive pyreal : Type :=
| PyInt (n : Z)
| PyFloat (x : pyfloat).

(** A result or a raised exception. *)
Definition res (A : Type) : Type := (exn + A)%type.

Definition ret {A} (a : A) : res A := inr a.
Definition raise {A} (e : exn) : res A := inl e.
Definition bind {A B} (m : res A) (k : A -> res B) : res B :=
  match m with
  | inl e => inl e
  | inr a => k a
  end.

(** One line written by [print] in the handler: the value and the
    exception that the message formats. *)
Record log_entry : Type := Log { log_val : pyval; log_exn : exn }.

(** A computation that prints and may raise: what it wrote, then how it
    ended. *)
Definition M (A : Type) : Type := (list log_entry * res A)%type.

Definition retM {A} (a : A) : M A := ([], inr a).
Definition bindM {A B} (m : M A) (k : A -> M B) : M B :=
  match m with
  | (w, inl e) => (w, inl e)
  | (w, inr a) => let (w', r) := k a in (w ++ w', r)
  end.
Definition liftM {A} (r : res A) : M A := ([], r).

Fixpoint mapM {A B} (f : A -> M B) (l : list A) : M (list B) :=
  match l with
  | [] => retM []
  | a :: t => bindM (f a) (fun b => bindM (mapM f t) (fun bs => retM (b :: bs)))
  end.

(** [int] to [float]: [OverflowError] from 2^1024 - 2^970 on, where
    rounding to nearest leaves the doubles. *)
Definition float_of_int (n : Z) : res pyfloat :=
  if (2 ^ 1024 - 2 ^ 970 <=? Z.abs n)%Z then raise OverflowError
  else ret (of_Z n).

Definition float_of_bool (b : bool) : pyfloat :=
  if b then Num 1%R else Zero false.

(** The builtin [float(v)]. *)
Definition py_float (v : pyval) : res pyfloat :=
  match v with
  | VFloat x => ret x
  | VInt n => float_of_int n
  | VBool b => ret (float_of_bool b)
  | VStr s => match float_of_str s with
              | Some x => ret x
              | None => raise ValueError
              end
  | _ => raise TypeError
  end.

(** The builtin [complex(v)] with one argument. *)
Definition py_complex (v : pyval) : res complex :=
  match v with
  | VComplex z => ret z
  | VFloat x => ret (Complex x (Zero false))
  | VInt n => bind (float_of_int n) (fun x => ret (Complex x (Zero false)))
  | VBool b => ret (Complex (float_of_bool b) (Zero false))
  | VStr s => match complex_of_str s with
              | Some z => ret z
              | None => raise ValueError
              end
  | _ => raise TypeError
  end.

(** [v.rstrip(set)]: only a [str] has the attribute. *)
Definition py_rstrip (v : pyval) (set : string) : res string :=
  match v with
  | VStr s => ret (rstrip set s)
  | _ => raise AttributeError
  end.

End Py.
Export Py.

Declare Scope py_scope.
Delimit Scope py_scope with py.
Notation "x <- m ;; k" := (bind m (fun x => k))
  (at level 61, m at next level, right associativity) : py_scope.
Notation "x <~ m ;; k" := (bindM m (fun x => k))
  (at level 61, m at next level, right associativity) : py_scope.
Local Open Scope py_scope.

(* ===================================================================== *)
(** * numpy arrays                                                        *)
(* ===================================================================== *)

Module Numpy.

(** Arrays of dimension 0, 1 and 2.  A two-dimensional array carries its
    number of columns, so that the shape (0, w) exists. *)
Inductive ndarray (T : Type) : Type :=
| Arr0 (x : T)
| Arr1 (v : list T)
| Arr2 (ncols : nat) (rows : list (list T)).
Arguments Arr0 {T} x.
Arguments Arr1 {T} v.
Arguments Arr2 {T} ncols rows.

Definition shape {T} (a : ndarray T) : list nat :=
  match a with
  | Arr0 _ => []
  | Arr1 v => [List.length v]
  | Arr2 w rows => [List.length rows; w]
  end.

(** [np.array(rows)] for a list of equally long lists: the empty list is
    the one-dimensional empty array. *)
Definition np_array {T} (rows : list (list T)) : ndarray T :=
  match rows with
  | [] => Arr1 []
  | r :: _ => Arr2 (List.length r) rows
  end.

(** An elementwise function. *)
Definition np_map {T U} (f : T -> U) (a : ndarray T) : ndarray U :=
  match a with
  | Arr0 x => Arr0 (f x)
  | Arr1 v => Arr1 (map f v)
  | Arr2 w rows => Arr2 w (map (map f) rows)
  end.

Definition column {T} (rows : list (list T)) (j : nat) : list T :=
  flat_map (fun row => match nth_error row j with
                       | Some x => [x]
                       | None => []
                       end) rows.

(** [np.add.reduce] of complex numbers: 0 for no element, else the
    elements added from the first on. *)
Definition csum (l : list complex) : complex :=
  match l with
  | [] => czero
  | z :: t => fold_left cadd t z
  end.

(** The count the sum is divided by, as a complex number. *)
Definition ccount (n : nat) : complex := Complex (of_nat n) (Zero false).

Definition cmean (l : list complex) (n : nat) : complex := cdiv (csum l) (ccount n).

(** [np.mean(a, axis=0)] on a complex array. *)
Definition np_mean_axis0 (a : ndarray complex) : res (ndarray complex) :=
  match a with
  | Arr0 _ => raise AxisError
  | Arr1 v => ret (Arr0 (cmean v (List.length v)))
  | Arr2 w rows =>
      ret (Arr1 (map (fun j => cmean (column rows j) (List.length rows)) (seq 0 w)))
  end.

(** [a.tolist()] *)
Inductive pylist : Type :=
| LScalar (x : pyfloat)
| LList (v : list pyfloat)
| LNested (rows : list (list pyfloat)).

Definition tolist (a : ndarray pyfloat) : pylist :=
  match a with
  | Arr0 x => LScalar x
  | Arr1 v => LList v
  | Arr2 _ rows => LNested rows
  end.

(** ** Reductions of a one-dimensional float array *)

(** [np.add.reduce]: 0.0 for no element. *)
Definition fsum (l : list pyfloat) : pyfloat :=
  match l with
  | [] => Zero false
  | x :: t => fold_left fadd t x
  end.

(** [np.mean(a)] and [a.mean()]: the sum divided by the count; NaN (and
    a warning) for no element. *)
Definition np_mean (l : list pyfloat) : pyfloat :=
  fdiv (fsum l) (of_nat (List.length l)).

(** [np.std(a)] with [ddof = 0]: the root of the mean squared deviation
    from the mean. *)
Definition np_std (l : list pyfloat) : pyfloat :=
  let arrmean := np_mean l in
  let x := map (fun a => fmul (fsub a arrmean) (fsub a arrmean)) l in
  fsqrt (fdiv (fsum x) (of_nat (List.length l))).

(** The elementwise [minimum] and [maximum] of the reduction loops: the
    first operand when it compares so or is NaN, else the second. *)
Definition np_minimum (a b : pyfloat) : pyfloat :=
  if fle a b || is_nan a then a else b.
Definition np_maximum (a b : pyfloat) : pyfloat :=
  if fge a b || is_nan a then a else b.

(** [np.min(a)] and [np.max(a)]: [ValueError] for no element. *)
Definition np_min (l : list pyfloat) : res pyfloat :=
  match l with
  | [] => raise ValueError
  | x :: t => ret (fold_left np_minimum t x)
  end.
Definition np_max (l : list pyfloat) : res pyfloat :=
  match l with
  | [] => raise ValueError
  | x :: t => ret (fold_left np_maximum t x)
  end.

Fixpoint insert_sorted (x : pyfloat) (l : list pyfloat) : list pyfloat :=
  match l with
  | [] => [x]
  | y :: t => if fle x y then x :: l else y :: insert_sorted x t
  end.

Definition sort_floats (l : list pyfloat) : list pyfloat :=
  fold_right insert_sorted [] l.

(** [np.median(a)]: NaN when an element is NaN or there is none; else the
    mean of the middle element, or of the two middle elements, of the
    sorted array. *)
Definition np_median (l : list pyfloat) : pyfloat :=
  if existsb is_nan l then NaN
  else
    let n := List.length l in
    let part := sort_floats l in
    let index := Nat.div n 2 in
    if Nat.eqb n 0 then np_mean []
    else if Nat.odd n then np_mean (firstn 1 (skipn index part))
    else np_mean (firstn 2 (skipn (index - 1) part)).

End Numpy.
Export Numpy.

(* ===================================================================== *)
(** * ITPC_Data_Final_25.py                                               *)
(* ===================================================================== *)

Module EEG.
Import PyStr.
Local Open Scope string_scope.
Local Open Scope Z_scope.

(** Python dictionaries, in insertion order. *)
Definition dict (K V : Type) : Type := list (K * V).

Fixpoint dict_get {K V} (eqb : K -> K -> bool) (k : K) (d : dict K V) : option V :=
  match d with
  | [] => None
  | (k', v) :: t => if eqb k' k then Some v else dict_get eqb k t
  end.

(** [d[k] = v] *)
Fixpoint dict_set {K V} (eqb : K -> K -> bool) (k : K) (v : V) (d : dict K V) : dict K V :=
  match d with
  | [] => [(k, v)]
  | (k', v') :: t => if eqb k' k then (k, v) :: t else (k', v') :: dict_set eqb k v t
  end.

(** [for x in items: d[key x] = body x], starting from [d]. *)
Fixpoint for_in {X K V} (eqb : K -> K -> bool) (key : X -> K) (body : X -> M V)
    (items : list X) (d : dict K V) : M (dict K V) :=
  match items with
  | [] => retM d
  | x :: t => v <~ body x ;; for_in eqb key body t (dict_set eqb (key x) v d)
  end.

(** [range(a, b)] *)
Definition range (a b : Z) : list Z :=
  map (fun k => a + Z.of_nat k) (seq 0 (Z.to_nat (b - a))).

Definition str_of_int (z : Z) : string := NilZero.string_of_int (Z.to_int z).

(** ** The analyser object *)

Record EEGPhaseAnalysis : Type := {
  data_path : string;
  num_frequencies : Z;
  num_electrodes : Z;
  trial_conditions : dict string (Z * Z);
  frequencies : list R
}.

(** [EEGPhaseAnalysis.__init__] *)
Definition init (data_path : string) (num_frequencies num_electrodes : Z)
  : EEGPhaseAnalysis :=
  {| data_path := data_path;
     num_frequencies := num_frequencies;
     num_electrodes := num_electrodes;
     trial_conditions :=
       [ ("GN", (1, 30));     (* Grammatical Nonsensical *)
         ("GS", (31, 60));    (* Grammatical Sensical *)
         ("UN", (61, 90));    (* Ungrammatical Nonsensical *)
         ("US", (91, 120)) ]; (* Ungrammatical Sensical *)
     frequencies :=
       [ 0.260416666666667; 0.325520833333333; 0.390625; 0.455729166666667;
         0.520833333333333; 0.5859375; 0.651041666666667; 0.716145833333333;
         0.78125; 0.846354166666667; 0.911458333333333; 0.9765625;
         1.04166666666667; 1.10677083333333; 1.171875; 1.23697916666667;
         1.30208333333333; 1.3671875; 1.43229166666667; 1.49739583333333;
         1.5625; 1.62760416666667; 1.69270833333333; 1.7578125;
         1.82291666666667; 1.88802083333333; 1.953125; 2.01822916666667;
         2.08333333333333; 2.1484375; 2.21354166666667; 2.27864583333333;
         2.34375; 2.40885416666667; 2.47395833333333; 2.5390625;
         2.60416666666667; 2.66927083333333; 2.734375; 2.79947916666667;
         2.86458333333333; 2.9296875; 2.99479166666667; 3.05989583333333;
         3.125; 3.19010416666667; 3.25520833333333; 3.3203125;
         3.38541666666667; 3.45052083333333; 3.515625; 3.58072916666667;
         3.64583333333333; 3.7109375; 3.77604166666667; 3.84114583333333;
         3.90625; 3.97135416666667 ]%R |}.

(** The defaults of the constructor. *)
Definition default_num_frequencies : Z := 58.
Definition default_num_electrodes : Z := 32.

(** ** [parse_complex_value] *)

(** The argument of [val.strip]: the single quote, the double quote and
    the two square brackets. *)
Definition quotes_and_brackets : string :=
  String "'" (String (ascii_of_nat 34) (String "[" (String "]" EmptyString))).

(** Lines 102-107: the list of two elements. *)
Definition two_elements (v0 v1 : pyval) : res (complex * pyreal) :=
  real <- py_float v0 ;;
  s <- py_rstrip v1 "i" ;;
  imag <- py_float (VStr s) ;;
  ret (Complex real imag, PyFloat (atan2 imag real)).

(** Lines 114-127: the string, with the value [val] is bound to when the
    branch ends. *)
Definition string_branch (s : string) : pyval * res (complex * pyreal) :=
  let val := strip quotes_and_brackets s in
  if contains "i" val || contains "j" val then
    let val := replace "i" "j" val in
    (VStr val, complex_num <- py_complex (VStr val) ;;
               ret (complex_num, PyFloat (phase complex_num)))
  else
    (VStr val, real <- py_float (VStr val) ;;
               ret (Complex real (Zero false), PyInt 0)).

(** The body of the [try] statement, lines 95-131: the final binding of
    [val] and the value returned or the exception raised. *)
Definition try_block (val : pyval) : pyval * res (complex * pyreal) :=
  match val with
  | VComplex z => (val, ret (z, PyFloat (phase z)))
  | VList [v0; v1] => (val, two_elements v0 v1)
  | _ =>
      let val := match val with
                 | VList [v0] => v0
                 | _ => val
                 end in
      match val with
      | VStr s => string_branch s
      | _ => (val, complex_num <- py_complex val ;;
                   ret (complex_num, PyFloat (phase complex_num)))
      end
  end.

(** The whole method: the handler prints [val] and the exception and
    returns [0+0j, 0]. *)
Definition parse_complex_value (val : pyval) : M (complex * pyreal) :=
  match try_block val with
  | (_, inr r) => retM r
  | (val, inl e) => ([Log val e], ret (czero, PyInt 0))
  end.

(** ** [preprocess_data] *)

Record row : Type := {
  stimuli : Z;
  electrode_number : Z;
  cells : dict string pyval      (* the other columns of the row *)
}.

Definition DataFrame : Type := list row.

(** [row[col]] *)
Definition getitem (r : row) (col : string) : res pyval :=
  match dict_get String.eqb col (cells r) with
  | Some v => ret v
  | None => raise KeyError
  end.

(** [[f'complex_val_{i}' for i in range(1, 58)]] *)
Definition complex_columns : list string :=
  map (fun i => ("complex_val_" ++ str_of_int i)%string) (range 1 58).

(** [np.array] of Python reals is an array of floats. *)
Definition float_of_real (p : pyreal) : pyfloat :=
  match p with
  | PyInt n => of_Z n
  | PyFloat x => x
  end.

(** The value stored under an electrode: the dictionary with the keys
    ['complex'] and ['phases']. *)
Record electrode_arrays : Type := {
  complex_values : ndarray complex;
  phases : ndarray pyfloat
}.

Definition condition_subset (data : DataFrame) (start end_ : Z) : DataFrame :=
  filter (fun r => (start <=? stimuli r) && (stimuli r <=? end_)) data.

Definition electrode_data (subset : DataFrame) (electrode : Z) : DataFrame :=
  filter (fun r => electrode_number r =? electrode) subset.

(** Line 177: one row through the parser, column by column. *)
Definition row_complex_with_phase (r : row) : M (list (complex * pyreal)) :=
  mapM (fun col => val <~ liftM (getitem r col) ;; parse_complex_value val)
       complex_columns.

(** Lines 173-189: the rows of one bucket. *)
Definition bucket_arrays (rows : DataFrame) : M electrode_arrays :=
  parsed <~ mapM row_complex_with_phase rows ;;
  retM {| complex_values := np_array (map (map fst) parsed);
          phases := np_array (map (map (fun p => float_of_real (snd p))) parsed) |}.

Definition preprocess_data (self : EEGPhaseAnalysis) (data : DataFrame)
  : M (dict string (dict Z electrode_arrays)) :=
  for_in String.eqb fst
    (fun item : string * (Z * Z) =>
       let '(_, (start, end_)) := item in
       let subset := condition_subset data start end_ in
       for_in Z.eqb (fun electrode => electrode)
         (fun electrode => bucket_arrays (electrode_data subset electrode))
         (range 1 (num_electrodes self + 1)) [])
    (trial_conditions self) [].

(** ** [compute_itpc] *)

(** The literal [1j]. *)
Definition j1 : complex := Complex (Zero false) (Num 1%R).

(** A float promoted to complex. *)
Definition complex_of_float (x : pyfloat) : complex := Complex x (Zero false).

Definition compute_itpc (phases : ndarray pyfloat) : res (ndarray pyfloat) :=
  mean_phase_vector <-
    np_mean_axis0 (np_map cexp (np_map (fun x => cmul j1 (complex_of_float x)) phases)) ;;
  let itpc := np_map cabs mean_phase_vector in
  ret itpc.

(** ** [analyze_itpc], on the table [load_data] has read *)

Record itpc_entry : Type := {
  itpc : ndarray pyfloat;
  complex_data : ndarray complex
}.

Definition analyze_itpc (self : EEGPhaseAnalysis) (full_data : DataFrame)
  : M (dict string (dict Z itpc_entry)) :=
  preprocessed_data <~ preprocess_data self full_data ;;
  for_in String.eqb fst
    (fun item : string * dict Z electrode_arrays =>
       for_in Z.eqb fst
         (fun e : Z * electrode_arrays =>
            liftM (itpc <- compute_itpc (phases (snd e)) ;;
                   ret {| itpc := itpc; complex_data := complex_values (snd e) |}))
         (snd item) [])
    preprocessed_data [].

(** ** [export_itpc_results]: the rows of the exported table *)

Record export_row : Type := {
  Condition : string;
  Electrode : Z;
  ITPC : pylist
}.

(** [itpc.tolist() if isinstance(itpc, np.ndarray) else itpc]: a numpy
    scalar is not an [ndarray] and is exported as it is. *)
Definition export_value (a : ndarray pyfloat) : pylist :=
  match a with
  | Arr0 x => LScalar x
  | _ => tolist a
  end.

Definition export_data (itpc_results : dict string (dict Z itpc_entry)) : list export_row :=
  flat_map (fun c : string * dict Z itpc_entry =>
              map (fun e : Z * itpc_entry =>
                     {| Condition := fst c; Electrode := fst e;
                        ITPC := export_value (itpc (snd e)) |})
                  (snd c))
           itpc_results.

(** ** [summary_statistics] *)

(** The dictionary stored for a condition. *)
Record condition_summary : Type := {
  stat_mean : pyfloat;
  stat_std : pyfloat;
  stat_min : pyfloat;
  stat_max : pyfloat;
  stat_median : pyfloat
}.

(** [d['itpc'].mean() if isinstance(d['itpc'], np.ndarray) else d['itpc']] *)
Definition electrode_value (d : itpc_entry) : pyfloat :=
  match itpc d with
  | Arr0 x => x
  | Arr1 v => np_mean v
  | Arr2 _ rows => np_mean (List.concat rows)
  end.

(** Lines 304-310: the five statistics, evaluated in the order of the
    dictionary display. *)
Definition condition_statistics (itpc_values : list pyfloat) : res condition_summary :=
  let mean := np_mean itpc_values in
  let std := np_std itpc_values in
  min <- np_min itpc_values ;;
  max <- np_max itpc_values ;;
  let median := np_median itpc_values in
  ret {| stat_mean := mean; stat_std := std; stat_min := min;
         stat_max := max; stat_median := median |}.

Definition summary_statistics (itpc_results : dict string (dict Z itpc_entry))
  : M (dict string condition_summary) :=
  for_in String.eqb fst
    (fun item : string * dict Z itpc_entry =>
       let itpc_values := map (fun e => electrode_value (snd e)) (snd item) in
       liftM (condition_statistics itpc_values))
    itpc_results [].

End EEG.
Export EEG.

(* ===================================================================== *)
(** * Vocabulary of the statements                                        *)
(* ===================================================================== *)

Section Vocabulary.
Local Open Scope R_scope.




(** [exp(1j * x)] for one entry of the phase array. *)
Definition unit_vector (x : pyfloat) : complex :=
  cexp (cmul j1 (complex_of_float x)).

(** The ITPC of one column of phases, the sum being divided by [n]. *)
Definition column_itpc (col : list pyfloat) (n : nat) : pyfloat :=
  cabs (cmean (map unit_vector col) n).

Definition all_finite (col : list pyfloat) : bool := forallb is_finite col.

(** The real values of a column of finite floats (0 stands in for a
    value that is not finite). *)
Definition real_of (x : pyfloat) : R :=
  match fin_val x with Some r => r | None => 0 end.

Definition sum_cos (l : list R) : R := fold_right (fun t a => cos t + a) 0 l.
Definition sum_sin (l : list R) : R := fold_right (fun t a => sin t + a) 0 l.

(** The length of the mean resultant vector of the angles [l], the sums
    being divided by [n]. *)
Definition resultant_length (l : list R) (n : nat) : R :=
  sqrt ((sum_cos l / INR n) * (sum_cos l / INR n)
        + (sum_sin l / INR n) * (sum_sin l / INR n)).

(** A complex number with the finite components [a] and [b]. *)
Definition cfin (z : complex) (a b : R) : Prop :=
  fin_val (real z) = Some a /\ fin_val (imag z) = Some b.

Definition cnan : complex := Complex NaN NaN.


(** [d[c][e]] *)
Definition get2 {V} (c : string) (e : Z) (d : dict string (dict Z V)) : option V :=
  match dict_get String.eqb c d with
  | Some d' => dict_get Z.eqb e d'
  | None => None
  end.

(** The rows [preprocess_data] selects for the bucket of condition [c]
    and electrode [e]: the frame [electrode_data] of the inner loop, when
    the two loops reach that pair. *)
Definition bucket_rows (self : EEGPhaseAnalysis) (data : DataFrame)
    (c : string) (e : Z) : option DataFrame :=
  match dict_get String.eqb c (trial_conditions self) with
  | Some (start, end_) =>
      if ((1 <=? e) && (e <=? num_electrodes self))%Z
      then Some (electrode_data (condition_subset data start end_) e)
      else None
  | None => None
  end.

(** The row [r] is placed in the bucket of [c] and [e]. *)
Definition placed (self : EEGPhaseAnalysis) (data : DataFrame)
    (c : string) (e : Z) (r : row) : Prop :=
  exists rows, bucket_rows self data c e = Some rows /\ In r rows.

(** The stimulus of [r] lies in the range of some condition. *)
Definition in_some_range (self : EEGPhaseAnalysis) (r : row) : Prop :=
  exists c lo hi,
    dict_get String.eqb c (trial_conditions self) = Some (lo, hi) /\
    (lo <= stimuli r <= hi)%Z.

(** The row has the 57 coefficient columns. *)
Definition has_columns (r : row) : bool :=
  forallb (fun col => match dict_get String.eqb col (cells r) with
                      | Some _ => true
                      | None => false
                      end) complex_columns.

(** A trial whose 57 coefficient cells all hold [v]. *)
Definition trial (stim elec : Z) (v : pyval) : row :=
  {| stimuli := stim; electrode_number := elec;
     cells := map (fun col => (col, v)) complex_columns |}.

(** What a loop [for x in items: d[key x] = body x] has stored for the
    item [x]: its key and the value of its body. *)
Definition stored_by {X K V} (key : X -> K) (body : X -> M V)
    (x : X) (kv : K * V) : Prop :=
  fst kv = key x /\ exists w, body x = (w, inr (snd kv)).

(** The analyser of [main] (58 frequencies, 32 electrodes) and one with
    two electrodes. *)
Definition csv_path : string := "data/csv_files/processed_data.csv".
Definition main_analyzer : EEGPhaseAnalysis :=
  init csv_path default_num_frequencies default_num_electrodes.
Definition two_electrode_analyzer : EEGPhaseAnalysis := init csv_path 10 2.


(** The number of rows of an array built by [np_array]. *)
Definition nrows {T} (a : ndarray T) : nat :=
  match a with
  | Arr0 _ => 0
  | Arr1 _ => 0
  | Arr2 _ rows => List.length rows
  end.

(** The character map of [val.replace('i', 'j')]. *)
Definition i_to_j (c : ascii) : ascii := if Ascii.eqb c "i"%char then "j"%char else c.


(** A string made of quote and bracket characters only. *)
Definition only_quotes_and_brackets (s : string) : bool :=
  forallb (fun c => PyStr.mem c (PyStr.chars quotes_and_brackets)) (PyStr.chars s).




(** The per-electrode values [summary_statistics] collects for a
    condition. *)
Definition itpc_values_of (d : dict Z itpc_entry) : list pyfloat :=
  map (fun e => electrode_value (snd e)) d.

(** The five statistics are all NaN. *)
Definition all_nan (st : condition_summary) : Prop :=
  stat_mean st = NaN /\ stat_std st = NaN /\ stat_min st = NaN /\
  stat_max st = NaN /\ stat_median st = NaN.


(** An analyser without electrodes. *)
Definition no_electrode_analyzer : EEGPhaseAnalysis := init csv_path 58 0.



End Vocabulary.

(* ===================================================================== *)
(** * Facts about the float model                                         *)
(* ===================================================================== *)

Section FloatFacts.
Local Open Scope R_scope.

Lemma Rzerob_true (r : R) : Rzerob r = true <-> r = 0.
Proof. unfold Rzerob. destruct (Req_dec_T r 0); split; congruence. Qed.

Lemma Rzerob_false (r : R) : Rzerob r = false <-> r <> 0.
Proof. unfold Rzerob. destruct (Req_dec_T r 0); split; congruence. Qed.

Lemma Rltb_true (a b : R) : Rltb a b = true <-> a < b.
Proof. unfold Rltb. destruct (Rlt_dec a b); split; congruence. Qed.

Lemma Rltb_false (a b : R) : Rltb a b = false <-> b <= a.
Proof.
  unfold Rltb. destruct (Rlt_dec a b); split; intros; try congruence; lra.
Qed.

Lemma Rleb_true (a b : R) : Rleb a b = true <-> a <= b.
Proof. unfold Rleb. destruct (Rle_dec a b); split; congruence. Qed.

Lemma fin_val_mk_fin (s : bool) (r : R) : fin_val (mk_fin s r) = Some r.
Proof.
  unfold mk_fin. destruct (Rzerob r) eqn:E; simpl; auto.
  apply Rzerob_true in E. congruence.
Qed.

Lemma fin_val_of_R (r : R) : fin_val (of_R r) = Some r.
Proof. apply fin_val_mk_fin. Qed.

Lemma is_finite_fin_val (x : pyfloat) :
  is_finite x = true <-> exists a, fin_val x = Some a.
Proof.
  destruct x; simpl; split; intros H; try discriminate; eauto;
    destruct H as [a H]; discriminate.
Qed.

Lemma fin_val_is_finite (x : pyfloat) (a : R) : fin_val x = Some a -> is_finite x = true.
Proof. intros H. apply is_finite_fin_val. eauto. Qed.

Lemma not_finite_cases (x : pyfloat) :
  is_finite x = false -> x = NaN \/ exists s, x = Inf s.
Proof. destruct x; simpl; intros; try discriminate; eauto. Qed.

Lemma fin_val_fneg x a : fin_val x = Some a -> fin_val (fneg x) = Some (- a).
Proof.
  destruct x; simpl; intros H; inversion H; subst; auto.
  f_equal. lra.
Qed.

Lemma fin_val_fadd x y a b :
  fin_val x = Some a -> fin_val y = Some b -> fin_val (fadd x y) = Some (a + b).
Proof.
  destruct x, y; simpl; intros Hx Hy; inversion Hx; inversion Hy; subst;
    try rewrite fin_val_mk_fin; simpl; f_equal; lra.
Qed.

Lemma fin_val_fsub x y a b :
  fin_val x = Some a -> fin_val y = Some b -> fin_val (fsub x y) = Some (a - b).
Proof.
  intros Hx Hy. unfold fsub.
  rewrite (fin_val_fadd x (fneg y) a (- b)); auto using fin_val_fneg.
Qed.

Lemma fin_val_fmul x y a b :
  fin_val x = Some a -> fin_val y = Some b -> fin_val (fmul x y) = Some (a * b).
Proof.
  destruct x, y; simpl; intros Hx Hy; inversion Hx; inversion Hy; subst;
    try rewrite fin_val_mk_fin; simpl; f_equal; lra.
Qed.

Lemma fin_val_fdiv x y a b :
  fin_val x = Some a -> fin_val y = Some b -> b <> 0 ->
  fin_val (fdiv x y) = Some (a / b).
Proof.
  destruct x, y; simpl; intros Hx Hy Hb; inversion Hx; inversion Hy; subst;
    try congruence.
  - destruct (Rzerob b) eqn:E; [apply Rzerob_true in E; congruence|].
    simpl. f_equal. unfold Rdiv. lra.
  - destruct (Rzerob b) eqn:E; [apply Rzerob_true in E; congruence|].
    apply fin_val_mk_fin.
Qed.

Lemma fin_val_fexp x a : fin_val x = Some a -> fin_val (fexp x) = Some (exp a).
Proof.
  destruct x; simpl; intros H; inversion H; subst; auto.
  rewrite exp_0. reflexivity.
Qed.

Lemma fin_val_fcos x a : fin_val x = Some a -> fin_val (fcos x) = Some (cos a).
Proof.
  destruct x; simpl; intros H; inversion H; subst.
  - rewrite cos_0. reflexivity.
  - apply fin_val_of_R.
Qed.

Lemma fin_val_fsin x a : fin_val x = Some a -> fin_val (fsin x) = Some (sin a).
Proof.
  destruct x; simpl; intros H; inversion H; subst.
  - rewrite sin_0. reflexivity.
  - apply fin_val_of_R.
Qed.

Lemma fadd_NaN_r x : fadd x NaN = NaN.
Proof. destruct x; reflexivity. Qed.

Lemma fmul_NaN_r x : fmul x NaN = NaN.
Proof. destruct x; reflexivity. Qed.

Lemma of_Z_pos (z : Z) : (0 < z)%Z -> of_Z z = Num (IZR z).
Proof.
  intros H. unfold of_Z. destruct (Z.eqb_spec z 0); [lia | reflexivity].
Qed.

End FloatFacts.

Section Atan2Facts.
Local Open Scope R_scope.











Lemma Rltb_neg1 : Rltb (-1) 0 = true.
Proof. apply Rltb_true. lra. Qed.

(** [atan2(-0.0, -1.0)] is -pi. *)
Lemma atan2_negzero_neg1 : atan2 (Zero true) (Num (-1)) = Num (- PI).
Proof.
  unfold atan2. simpl. rewrite Rltb_neg1. simpl.
  rewrite Rabs_right; [reflexivity|]. pose proof PI_RGT_0. lra.
Qed.

End Atan2Facts.

(* ===================================================================== *)
(** * The cell parser                                                     *)
(* ===================================================================== *)

Section ParserFacts.
Local Open Scope string_scope.

Lemma parse_of_try_block_ok val val' r :
  try_block val = (val', inr r) -> parse_complex_value val = ([], inr r).
Proof. intros H. unfold parse_complex_value. rewrite H. reflexivity. Qed.



Lemma bind_inr {A B} (m : res A) (k : A -> res B) (b : B) :
  bind m k = inr b -> exists a, m = inr a /\ k a = inr b.
Proof. destruct m as [e | a]; simpl; intros H; [discriminate | eauto]. Qed.

Lemma two_elements_phase v0 v1 z p :
  two_elements v0 v1 = inr (z, p) ->
  exists re im, z = Complex re im /\ p = PyFloat (atan2 im re).
Proof.
  unfold two_elements. intros H.
  apply bind_inr in H as [re [_ H]].
  apply bind_inr in H as [s [_ H]].
  apply bind_inr in H as [im [_ H]].
  inversion H; subst. eauto.
Qed.

Lemma complex_branch_phase (v : pyval) z p :
  (complex_num <- py_complex v ;; ret (complex_num, PyFloat (phase complex_num)))
    = inr (z, p) ->
  p = PyFloat (phase z).
Proof.
  intros H. apply bind_inr in H as [c [_ H]]. inversion H; subst. reflexivity.
Qed.




Lemma strip_abc : PyStr.strip quotes_and_brackets "abc" = "abc".
Proof. reflexivity. Qed.

Lemma float_of_str_abc : PyStr.float_of_str "abc" = None.
Proof. reflexivity. Qed.

Lemma try_block_abc : try_block (VStr "abc") = (VStr "abc", inl ValueError).
Proof. reflexivity. Qed.



(** The value printed is the one [val] is bound to when the exception is
    raised, not always the argument: a string is printed stripped and with
    [i] replaced by [j], a one-element list as its element. *)
Example logged_value_is_rebound :
  parse_complex_value (VStr "inf")
    = ([Log (VStr "jnf") ValueError], inr (czero, PyInt 0)) /\
  parse_complex_value (VList [VStr "'x'"])
    = ([Log (VStr "x") ValueError], inr (czero, PyInt 0)).
Proof. split; reflexivity. Qed.


(** The same from a cell as a CSV file holds it. *)
Example phase_minus_pi_from_string :
  exists z, parse_complex_value (VStr "-1-0i") = ([], inr (z, PyFloat (Num (- PI)%R))).
Proof.
  eexists. unfold parse_complex_value.
  replace (try_block (VStr "-1-0i"))
    with (VStr "-1-0j",
          @inr exn _ (Complex (PyStr.dec_value true 1 0) (Zero true),
                      PyFloat (phase (Complex (PyStr.dec_value true 1 0) (Zero true)))))
    by reflexivity.
  unfold phase, PyStr.dec_value. simpl real. simpl imag. simpl Z.eqb. cbv iota.
  replace (-1 * 1 * 1)%R with (-1)%R by lra.
  rewrite atan2_negzero_neg1. reflexivity.
Qed.

(** An empty cell, which pandas reads as the float NaN, has phase NaN. *)
Example phase_nan_is_returned :
  parse_complex_value (VFloat NaN) = ([], inr (Complex NaN (Zero false), PyFloat NaN)).
Proof. reflexivity. Qed.


(** C7.  A string that, once the quotes and brackets around it are
    stripped, holds no [i] and no [j] and converts to the float [r], is
    parsed to [complex(r, 0)] with the phase the literal [0], whatever the
    sign of [r]; nothing is printed. *)
Theorem bare_real_string_phase_zero (s : string) (r : pyfloat) :
  PyStr.contains "i" (PyStr.strip quotes_and_brackets s) = false ->
  PyStr.contains "j" (PyStr.strip quotes_and_brackets s) = false ->
  PyStr.float_of_str (PyStr.strip quotes_and_brackets s) = Some r ->
  parse_complex_value (VStr s) = ([], inr (Complex r (Zero false), PyInt 0)).
Proof.
  intros Hi Hj Hr.
  apply parse_of_try_block_ok with (val' := VStr (PyStr.strip quotes_and_brackets s)).
  unfold try_block, string_branch. rewrite Hi, Hj. simpl orb. cbv iota.
  unfold py_float. rewrite Hr. reflexivity.
Qed.

Lemma bare_real_string_phase_zero_witness :
  parse_complex_value (VStr "[-2.5]")
    = ([], inr (Complex (PyStr.dec_value true 25 (-1)) (Zero false), PyInt 0)).
Proof.
  apply (bare_real_string_phase_zero "[-2.5]" (PyStr.dec_value true 25 (-1)));
    reflexivity.
Defined.




End ParserFacts.

(* ===================================================================== *)
(** * The mean resultant vector of a column of phases                     *)
(* ===================================================================== *)

Section UnitVectors.
Local Open Scope R_scope.

Lemma cexp_fin (z : complex) (a b : R) :
  fin_val (real z) = Some a -> fin_val (imag z) = Some b ->
  fin_val (real (cexp z)) = Some (exp a * cos b) /\
  fin_val (imag (cexp z)) = Some (exp a * sin b).
Proof.
  intros Ha Hb. unfold cexp.
  rewrite (fin_val_is_finite _ _ Ha), (fin_val_is_finite _ _ Hb). simpl.
  split; apply fin_val_fmul; auto using fin_val_fexp, fin_val_fcos, fin_val_fsin.
Qed.

Lemma j1_times_fin (x : pyfloat) (t : R) :
  fin_val x = Some t ->
  fin_val (real (cmul j1 (complex_of_float x))) = Some (0 * t - 1 * 0) /\
  fin_val (imag (cmul j1 (complex_of_float x))) = Some (0 * 0 + 1 * t).
Proof.
  intros Ht. unfold cmul, j1, complex_of_float. cbn [real imag].
  split.
  - apply fin_val_fsub; apply fin_val_fmul; auto.
  - apply fin_val_fadd; apply fin_val_fmul; auto.
Qed.

(** A finite phase gives the point (cos t, sin t). *)
Lemma unit_vector_fin (x : pyfloat) (t : R) :
  fin_val x = Some t ->
  fin_val (real (unit_vector x)) = Some (cos t) /\
  fin_val (imag (unit_vector x)) = Some (sin t).
Proof.
  intros Ht. destruct (j1_times_fin x t Ht) as [Hr Hi].
  destruct (cexp_fin _ _ _ Hr Hi) as [Er Ei].
  unfold unit_vector. rewrite Er, Ei.
  replace (0 * t - 1 * 0) with 0 by lra.
  replace (0 * 0 + 1 * t) with t by lra.
  rewrite exp_0. split; f_equal; lra.
Qed.

Lemma Rzerob_1 : Rzerob 1 = false.
Proof. apply Rzerob_false. lra. Qed.

(** A NaN or infinite phase gives NaN in both components. *)
Lemma unit_vector_not_finite (x : pyfloat) :
  is_finite x = false -> unit_vector x = Complex NaN NaN.
Proof.
  intros H. apply not_finite_cases in H as [-> | [s ->]].
  - reflexivity.
  - unfold unit_vector, cmul, j1, complex_of_float. simpl real. simpl imag.
    simpl. rewrite Rzerob_1. reflexivity.
Qed.

End UnitVectors.

Section ColumnMean.
Local Open Scope R_scope.

Lemma cadd_fin z1 z2 a1 b1 a2 b2 :
  cfin z1 a1 b1 -> cfin z2 a2 b2 -> cfin (cadd z1 z2) (a1 + a2) (b1 + b2).
Proof.
  intros [H1 H2] [H3 H4]. split; simpl; apply fin_val_fadd; assumption.
Qed.

Lemma cadd_cnan_r z : cadd z cnan = cnan.
Proof. unfold cadd, cnan. simpl. rewrite !fadd_NaN_r. reflexivity. Qed.

Lemma cadd_cnan_l z : cadd cnan z = cnan.
Proof. reflexivity. Qed.

Lemma fold_cadd_cnan (l : list complex) : fold_left cadd l cnan = cnan.
Proof. induction l as [| z l IH]; simpl; auto. Qed.

Lemma unit_vector_cfin x :
  is_finite x = true -> cfin (unit_vector x) (cos (real_of x)) (sin (real_of x)).
Proof.
  intros H. apply is_finite_fin_val in H as [t Ht].
  unfold real_of. rewrite Ht. apply unit_vector_fin. assumption.
Qed.

Lemma fold_cadd_fin (col : list pyfloat) :
  forall z a b,
    cfin z a b -> all_finite col = true ->
    cfin (fold_left cadd (map unit_vector col) z)
         (a + sum_cos (map real_of col)) (b + sum_sin (map real_of col)).
Proof.
  induction col as [| x col IH]; intros z a b Hz Hfin; simpl.
  - replace (a + 0) with a by lra. replace (b + 0) with b by lra. assumption.
  - simpl in Hfin. apply andb_prop in Hfin as [Hx Hcol].
    replace (a + (cos (real_of x) + sum_cos (map real_of col)))
      with ((a + cos (real_of x)) + sum_cos (map real_of col)) by lra.
    replace (b + (sin (real_of x) + sum_sin (map real_of col)))
      with ((b + sin (real_of x)) + sum_sin (map real_of col)) by lra.
    apply IH; [| assumption].
    apply cadd_fin; [assumption | apply unit_vector_cfin; assumption].
Qed.

Lemma fold_cadd_not_finite (col : list pyfloat) :
  forall z, all_finite col = false ->
            fold_left cadd (map unit_vector col) z = cnan.
Proof.
  induction col as [| x col IH]; intros z Hfin; simpl in *; [discriminate|].
  destruct (is_finite x) eqn:Hx; simpl in Hfin.
  - apply IH. assumption.
  - rewrite (unit_vector_not_finite x Hx). fold cnan.
    rewrite cadd_cnan_r. apply fold_cadd_cnan.
Qed.

(** The sum over a column of finite phases. *)
Lemma csum_fin (col : list pyfloat) :
  all_finite col = true ->
  cfin (csum (map unit_vector col))
       (sum_cos (map real_of col)) (sum_sin (map real_of col)).
Proof.
  destruct col as [| x col]; intros Hfin.
  - split; reflexivity.
  - simpl in Hfin. apply andb_prop in Hfin as [Hx Hcol]. simpl.
    apply fold_cadd_fin; [apply unit_vector_cfin |]; assumption.
Qed.

(** The sum over a column with a NaN or an infinite phase. *)
Lemma csum_not_finite (col : list pyfloat) :
  all_finite col = false -> csum (map unit_vector col) = cnan.
Proof.
  destruct col as [| x col]; intros Hfin; [discriminate|].
  simpl in Hfin. simpl.
  destruct (is_finite x) eqn:Hx; simpl in Hfin.
  - apply fold_cadd_not_finite. assumption.
  - rewrite (unit_vector_not_finite x Hx). apply fold_cadd_cnan.
Qed.

Lemma of_nat_pos (n : nat) : (1 <= n)%nat -> of_nat n = Num (INR n).
Proof.
  intros H. unfold of_nat. rewrite of_Z_pos by lia.
  rewrite <- INR_IZR_INZ. reflexivity.
Qed.

Lemma INR_pos (n : nat) : (1 <= n)%nat -> 0 < INR n.
Proof. intros H. apply lt_0_INR. lia. Qed.

(** Smith's quotient by a positive count takes the first branch. *)
Lemma cdiv_count (z : complex) (n : nat) :
  (1 <= n)%nat ->
  cdiv z (ccount n) =
  let rat := fdiv (Zero false) (Num (INR n)) in
  let scl := fdiv (Num 1) (fadd (Num (INR n)) (fmul (Zero false) rat)) in
  Complex (fmul (fadd (real z) (fmul (imag z) rat)) scl)
          (fmul (fsub (imag z) (fmul (real z) rat)) scl).
Proof.
  intros Hn. pose proof (INR_pos n Hn) as Hpos.
  unfold cdiv, ccount. rewrite (of_nat_pos n Hn). cbn [real imag fabs].
  assert (Hge : fge (Num (Rabs (INR n))) (Zero false) = true).
  { simpl. apply Rleb_true. apply Rabs_pos. }
  rewrite Hge.
  assert (Hz : is_zero (Num (Rabs (INR n))) = false).
  { simpl. apply Rzerob_false. rewrite Rabs_right; lra. }
  rewrite Hz. reflexivity.
Qed.

Lemma cmean_fin (z : complex) (n : nat) (a b : R) :
  (1 <= n)%nat -> cfin z a b ->
  cfin (cdiv z (ccount n)) (a / INR n) (b / INR n).
Proof.
  intros Hn [Ha Hb]. pose proof (INR_pos n Hn) as Hpos.
  rewrite (cdiv_count z n Hn). cbv zeta.
  assert (Hrat : fin_val (fdiv (Zero false) (Num (INR n))) = Some (0 / INR n)).
  { apply fin_val_fdiv; auto. lra. }
  assert (Hden : fin_val (fadd (Num (INR n))
                               (fmul (Zero false) (fdiv (Zero false) (Num (INR n)))))
                 = Some (INR n + 0 * (0 / INR n))).
  { apply fin_val_fadd; auto. apply fin_val_fmul; auto. }
  assert (Hne : INR n + 0 * (0 / INR n) <> 0).
  { unfold Rdiv. lra. }
  assert (Hscl : fin_val (fdiv (Num 1)
                   (fadd (Num (INR n))
                         (fmul (Zero false) (fdiv (Zero false) (Num (INR n))))))
                 = Some (1 / (INR n + 0 * (0 / INR n)))).
  { apply fin_val_fdiv; auto. }
  split; cbn [real imag].
  - replace (a / INR n)
      with ((a + b * (0 / INR n)) * (1 / (INR n + 0 * (0 / INR n))))
      by (field; lra).
    apply fin_val_fmul; auto. apply fin_val_fadd; auto. apply fin_val_fmul; auto.
  - replace (b / INR n)
      with ((b - a * (0 / INR n)) * (1 / (INR n + 0 * (0 / INR n))))
      by (field; lra).
    apply fin_val_fmul; auto. apply fin_val_fsub; auto. apply fin_val_fmul; auto.
Qed.

Lemma cmean_cnan (n : nat) : cdiv cnan (ccount n) = cnan.
Proof.
  destruct n as [| n].
  - unfold cdiv, ccount, of_nat, of_Z. cbn.
    rewrite (proj2 (Rleb_true 0 0)) by lra. reflexivity.
  - rewrite cdiv_count by lia. reflexivity.
Qed.

Lemma cabs_fin (z : complex) (a b : R) :
  cfin z a b -> cabs z = of_R (sqrt (a * a + b * b)).
Proof.
  intros [Ha Hb]. unfold cabs, hypot. rewrite Ha, Hb.
  destruct (real z), (imag z); simpl in *; try discriminate; reflexivity.
Qed.

(** A column of finite phases: the length of the mean resultant vector. *)
Lemma column_itpc_finite (col : list pyfloat) (n : nat) :
  all_finite col = true -> (1 <= n)%nat ->
  column_itpc col n = of_R (resultant_length (map real_of col) n).
Proof.
  intros Hfin Hn. unfold column_itpc, cmean, resultant_length.
  apply cabs_fin. apply cmean_fin; [assumption | apply csum_fin; assumption].
Qed.

(** A column holding a NaN or an infinite phase: NaN. *)
Lemma column_itpc_not_finite (col : list pyfloat) (n : nat) :
  all_finite col = false -> column_itpc col n = NaN.
Proof.
  intros Hfin. unfold column_itpc, cmean.
  rewrite (csum_not_finite col Hfin), cmean_cnan. reflexivity.
Qed.

(** No element and the count 0: NaN. *)
Lemma column_itpc_empty : column_itpc [] 0 = NaN.
Proof.
  unfold column_itpc, cmean, cdiv, ccount, of_nat, of_Z. cbn.
  rewrite (proj2 (Rleb_true 0 0)) by lra. reflexivity.
Qed.

End ColumnMean.

Section ResultantLength.
Local Open Scope R_scope.

Lemma cos2_sin2 (t : R) : cos t * cos t + sin t * sin t = 1.
Proof. pose proof (sin2_cos2 t) as H. unfold Rsqr in H. lra. Qed.

Lemma resultant_length_single (t : R) : resultant_length [t] 1 = 1.
Proof.
  unfold resultant_length, sum_cos, sum_sin. simpl.
  replace ((cos t + 0) / 1 * ((cos t + 0) / 1) + (sin t + 0) / 1 * ((sin t + 0) / 1))
    with 1 by (pose proof (cos2_sin2 t); field_simplify; lra).
  apply sqrt_1.
Qed.






End ResultantLength.

(* ===================================================================== *)
(** * [compute_itpc]                                                      *)
(* ===================================================================== *)

Section ComputeItpc.
Local Open Scope R_scope.

Lemma column_map {T U} (f : T -> U) (rows : list (list T)) (j : nat) :
  column (map (map f) rows) j = map f (column rows j).
Proof.
  unfold column. induction rows as [| r rows IH]; simpl; [reflexivity|].
  rewrite map_app, IH. f_equal.
  rewrite nth_error_map. destruct (nth_error r j); reflexivity.
Qed.


(** The function on an array of each dimension. *)
Lemma compute_itpc_Arr0 (x : pyfloat) : compute_itpc (Arr0 x) = inl AxisError.
Proof. reflexivity. Qed.

Lemma compute_itpc_Arr1 (v : list pyfloat) :
  compute_itpc (Arr1 v) = inr (Arr0 (column_itpc v (List.length v))).
Proof.
  unfold compute_itpc, column_itpc, unit_vector. simpl.
  rewrite !map_map, !length_map. reflexivity.
Qed.

Lemma compute_itpc_Arr2 (w : nat) (rows : list (list pyfloat)) :
  compute_itpc (Arr2 w rows)
  = inr (Arr1 (map (fun j => column_itpc (column rows j) (List.length rows))
                   (seq 0 w))).
Proof.
  unfold compute_itpc, column_itpc, unit_vector. simpl.
  rewrite map_map. unfold ret. do 2 f_equal. apply map_ext. intros j.
  rewrite !column_map, !map_map, !length_map. reflexivity.
Qed.







Lemma column_nil {T} (j : nat) : column (@nil (list T)) j = [].
Proof. reflexivity. Qed.


Lemma map_seq_nth_error {T U} (h : option T -> U) (row : list T) :
  map (fun j => h (nth_error row j)) (seq 0 (List.length row))
  = map (fun x => h (Some x)) row.
Proof.
  induction row as [| x row IH]; simpl; [reflexivity|].
  f_equal. rewrite <- seq_shift, map_map. exact IH.
Qed.

Lemma column_single {T} (row : list T) (j : nat) :
  column [row] j = match nth_error row j with Some x => [x] | None => [] end.
Proof. unfold column. simpl. apply app_nil_r. Qed.

Lemma of_R_1 : of_R 1 = Num 1.
Proof. unfold of_R, mk_fin. rewrite Rzerob_1. reflexivity. Qed.

Lemma column_itpc_single (x : pyfloat) :
  column_itpc [x] 1 = if is_finite x then Num 1 else NaN.
Proof.
  destruct (is_finite x) eqn:Hx.
  - rewrite column_itpc_finite by (simpl; rewrite ?Hx; auto).
    simpl map. rewrite resultant_length_single. apply of_R_1.
  - apply column_itpc_not_finite. simpl. rewrite Hx. reflexivity.
Qed.

Lemma compute_itpc_one_row (row : list pyfloat) :
  compute_itpc (np_array [row])
  = inr (Arr1 (map (fun x => if is_finite x then Num 1 else NaN) row)).
Proof.
  simpl np_array. rewrite compute_itpc_Arr2. do 2 f_equal. simpl List.length.
  rewrite <- (map_seq_nth_error
                (fun o => match o with
                          | Some x => if is_finite x then Num 1 else NaN
                          | None => column_itpc [] 1
                          end) row).
  apply map_ext. intros j. rewrite column_single.
  destruct (nth_error row j); [apply column_itpc_single | reflexivity].
Qed.








(** The empty bucket: [np.array([])] has the shape (0,), its mean over
    axis 0 is one complex NaN and the ITPC one float NaN. *)
Lemma compute_itpc_empty : compute_itpc (np_array []) = inr (Arr0 NaN).
Proof.
  simpl np_array. rewrite compute_itpc_Arr1. simpl List.length.
  rewrite column_itpc_empty. reflexivity.
Qed.

(** An array of shape (0, w) would give a vector of [w] NaNs. *)
Lemma compute_itpc_no_rows (w : nat) :
  compute_itpc (Arr2 w []) = inr (Arr1 (repeat NaN w)).
Proof.
  rewrite compute_itpc_Arr2. do 2 f_equal. simpl List.length.
  induction w as [| w IH] using nat_ind; [reflexivity|].
  rewrite seq_S, map_app, IH. simpl. rewrite column_itpc_empty.
  symmetry. apply repeat_cons.
Qed.

End ComputeItpc.

(* ===================================================================== *)
(** * Dictionaries and loops                                              *)
(* ===================================================================== *)

Section Loops.
Context {X K V : Type}.
Variable eqb : K -> K -> bool.
Hypothesis eqb_eq : forall a b, eqb a b = true <-> a = b.
Variable key : X -> K.
Variable body : X -> M V.

Lemma eqb_refl (k : K) : eqb k k = true.
Proof. apply eqb_eq. reflexivity. Qed.

Lemma eqb_neq (a b : K) : a <> b -> eqb a b = false.
Proof.
  intros H. destruct (eqb a b) eqn:E; [| reflexivity].
  apply eqb_eq in E. contradiction.
Qed.

Lemma dict_set_fresh (k : K) (v : V) (d : dict K V) :
  ~ In k (map fst d) -> dict_set eqb k v d = d ++ [(k, v)].
Proof.
  induction d as [| [k' v'] d IH]; simpl; intros H; [reflexivity|].
  rewrite eqb_neq by tauto. rewrite IH by tauto. reflexivity.
Qed.

Lemma dict_get_In (k : K) (v : V) (d : dict K V) :
  dict_get eqb k d = Some v -> In (k, v) d.
Proof.
  induction d as [| [k' v'] d IH]; simpl; [discriminate|].
  destruct (eqb k' k) eqn:E.
  - apply eqb_eq in E. intros H. inversion H; subst. auto.
  - auto.
Qed.

Lemma In_dict_get (k : K) (v : V) (d : dict K V) :
  NoDup (map fst d) -> In (k, v) d -> dict_get eqb k d = Some v.
Proof.
  induction d as [| [k' v'] d IH]; simpl; [tauto|].
  intros Hnd [H | H].
  - inversion H; subst. rewrite eqb_refl. reflexivity.
  - inversion Hnd as [| ? ? Hnot Hnd']; subst.
    rewrite eqb_neq.
    + apply IH; assumption.
    + intros ->. apply Hnot. apply (in_map fst) in H. exact H.
Qed.

Lemma bindM_inr {A B} (m : M A) (k : A -> M B) (w : list log_entry) (b : B) :
  bindM m k = (w, inr b) ->
  exists w1 a w2, m = (w1, inr a) /\ k a = (w2, inr b) /\ w = w1 ++ w2.
Proof.
  unfold bindM. destruct m as [w1 [e | a]]; [discriminate|].
  destruct (k a) as [w2 r] eqn:E. intros H. inversion H; subst.
  exists w1, a, w2. auto.
Qed.

Lemma for_in_fresh (items : list X) :
  forall d w d',
    NoDup (map key items) ->
    (forall x, In x items -> ~ In (key x) (map fst d)) ->
    for_in eqb key body items d = (w, inr d') ->
    exists l, d' = d ++ l /\ Forall2 (stored_by key body) items l.
Proof.
  induction items as [| x items IH]; intros d w d' Hnd Hfresh H.
  - simpl in H. inversion H; subst. exists []. rewrite app_nil_r. auto.
  - simpl in H. apply bindM_inr in H as (w1 & v & w2 & Hb & Hrest & _).
    inversion Hnd as [| ? ? Hnot Hnd']; subst.
    rewrite dict_set_fresh in Hrest by (apply Hfresh; left; reflexivity).
    apply IH in Hrest as (l & -> & Hl); [| assumption |].
    + exists ((key x, v) :: l). rewrite <- app_assoc. split; [reflexivity|].
      constructor; [| assumption]. split; [reflexivity | eauto].
    + intros x' Hx'. rewrite map_app, in_app_iff. simpl.
      intros [Hin | [Heq | []]].
      * apply (Hfresh x'); [right; assumption | assumption].
      * apply Hnot. rewrite Heq. apply in_map. assumption.
Qed.

(** A loop over distinct keys into the empty dictionary. *)
Lemma for_in_stored (items : list X) (w : list log_entry) (d' : dict K V) :
  NoDup (map key items) ->
  for_in eqb key body items [] = (w, inr d') ->
  Forall2 (stored_by key body) items d'.
Proof.
  intros Hnd H. apply for_in_fresh in H as (l & -> & Hl); auto.
Qed.

Lemma stored_keys (items : list X) (d : dict K V) :
  Forall2 (stored_by key body) items d -> map fst d = map key items.
Proof.
  induction 1 as [| x kv items d [Hk _] _ IH]; simpl; [reflexivity|].
  rewrite Hk, IH. reflexivity.
Qed.

Lemma stored_get (items : list X) (d : dict K V) (k : K) (v : V) :
  Forall2 (stored_by key body) items d ->
  dict_get eqb k d = Some v ->
  exists x w, In x items /\ key x = k /\ body x = (w, inr v).
Proof.
  intros HF Hget. apply dict_get_In in Hget.
  induction HF as [| x kv items d [Hk [w Hb]] _ IH]; simpl in *; [tauto|].
  destruct Hget as [-> | Hin].
  - simpl in *. exists x, w. auto.
  - destruct (IH Hin) as (x' & w' & Hx' & Hk' & Hb'). exists x', w'. auto.
Qed.

Lemma stored_In (items : list X) (d : dict K V) (x : X) :
  NoDup (map key items) ->
  Forall2 (stored_by key body) items d ->
  In x items ->
  exists v w, dict_get eqb (key x) d = Some v /\ body x = (w, inr v).
Proof.
  intros Hnd HF Hx.
  assert (Hkeys := stored_keys items d HF).
  assert (exists v w, In (key x, v) d /\ body x = (w, inr v)) as (v & w & Hin & Hb).
  { clear Hnd Hkeys.
    induction HF as [| x0 kv items d [Hk [w Hb]] _ IH]; simpl in *; [tauto|].
    destruct Hx as [-> | Hx].
    - exists (snd kv), w. split; [| assumption]. left.
      rewrite <- Hk. destruct kv; reflexivity.
    - destruct (IH Hx) as (v & w' & Hin & Hb'). exists v, w'. auto. }
  exists v, w. split; [| assumption].
  apply In_dict_get; [rewrite Hkeys |]; assumption.
Qed.

Lemma for_in_returns (items : list X) :
  (forall x, In x items -> exists w v, body x = (w, inr v)) ->
  forall d, exists w d', for_in eqb key body items d = (w, inr d').
Proof.
  induction items as [| x items IH]; intros Hok d; simpl.
  - unfold retM. eauto.
  - destruct (Hok x (or_introl eq_refl)) as (w & v & Hb). rewrite Hb.
    destruct (IH (fun y Hy => Hok y (or_intror Hy)) (dict_set eqb (key x) v d))
      as (w' & d' & Hrest).
    unfold bindM. rewrite Hrest. eauto.
Qed.

End Loops.

Section MapM.
Context {A B : Type}.
Variable f : A -> M B.

Lemma mapM_inv (l : list A) :
  forall w bs, mapM f l = (w, inr bs) ->
               Forall2 (fun a b => exists w', f a = (w', inr b)) l bs.
Proof.
  induction l as [| a l IH]; intros w bs H; simpl in H.
  - inversion H; subst. constructor.
  - apply bindM_inr in H as (w1 & b & w2 & Hf & H & _).
    apply bindM_inr in H as (w3 & bs' & w4 & Hrest & H & _).
    inversion H; subst. constructor; eauto.
Qed.

Lemma mapM_length (l : list A) (w : list log_entry) (bs : list B) :
  mapM f l = (w, inr bs) -> List.length bs = List.length l.
Proof.
  intros H. apply mapM_inv in H. symmetry. eapply Forall2_length. eassumption.
Qed.

Lemma mapM_returns (l : list A) :
  (forall a, In a l -> exists w b, f a = (w, inr b)) ->
  exists w bs, mapM f l = (w, inr bs).
Proof.
  induction l as [| a l IH]; intros Hok; simpl.
  - unfold retM. eauto.
  - destruct (Hok a (or_introl eq_refl)) as (w & b & Hf). rewrite Hf.
    destruct (IH (fun y Hy => Hok y (or_intror Hy))) as (w' & bs & Hrest).
    unfold bindM at 1. rewrite Hrest. simpl. eauto.
Qed.

End MapM.

(* ===================================================================== *)
(** * [preprocess_data]                                                   *)
(* ===================================================================== *)

Section Preprocess.
Local Open Scope Z_scope.

Lemma range_In (a b e : Z) : In e (range a b) <-> a <= e < b.
Proof.
  unfold range. rewrite in_map_iff. split.
  - intros (k & <- & Hk). apply in_seq in Hk. lia.
  - intros H. exists (Z.to_nat (e - a)). split; [lia|].
    apply in_seq. lia.
Qed.

Lemma range_NoDup (a b : Z) : NoDup (range a b).
Proof.
  unfold range. apply Injective_map_NoDup; [| apply seq_NoDup].
  intros x y H. lia.
Qed.

Lemma complex_columns_length : List.length complex_columns = 57%nat.
Proof. reflexivity. Qed.

Lemma init_conditions_NoDup path nf ne :
  NoDup (map fst (trial_conditions (init path nf ne))).
Proof.
  simpl. repeat constructor; simpl; intuition discriminate.
Qed.

Lemma parse_returns_full (v : pyval) :
  exists w r, parse_complex_value v = (w, inr r).
Proof.
  unfold parse_complex_value.
  destruct (try_block v) as [v' [e | r]]; unfold retM, ret; eauto.
Qed.

Lemma row_complex_with_phase_length (r : row) w ps :
  row_complex_with_phase r = (w, inr ps) -> List.length ps = 57%nat.
Proof.
  intros H. apply mapM_length in H. rewrite H. apply complex_columns_length.
Qed.

Lemma row_complex_with_phase_returns (r : row) :
  has_columns r = true -> exists w ps, row_complex_with_phase r = (w, inr ps).
Proof.
  intros H. unfold has_columns in H. rewrite forallb_forall in H.
  apply mapM_returns. intros col Hcol. specialize (H col Hcol).
  unfold getitem, liftM. destruct (dict_get String.eqb col (cells r)); [| discriminate].
  destruct (parse_returns_full p) as (w & x & Hp).
  unfold bindM, ret. rewrite Hp. eauto.
Qed.

(** A missing column ends the row, and with it the call, by [KeyError]. *)
Lemma bucket_arrays_inv (rows : DataFrame) w arrs :
  bucket_arrays rows = (w, inr arrs) ->
  exists parsed,
    List.length parsed = List.length rows /\
    Forall (fun ps => List.length ps = 57%nat) parsed /\
    arrs = {| complex_values := np_array (map (map fst) parsed);
              phases := np_array (map (map (fun p => float_of_real (snd p))) parsed) |}.
Proof.
  unfold bucket_arrays. intros H.
  apply bindM_inr in H as (w1 & parsed & w2 & Hm & Hret & _).
  inversion Hret; subst. exists parsed. split; [| split; [| reflexivity]].
  - eapply mapM_length. eassumption.
  - apply mapM_inv in Hm. clear -Hm.
    induction Hm as [| r ps rows parsed [w' Hr] _ IH]; constructor; auto.
    eapply row_complex_with_phase_length. eassumption.
Qed.

Lemma bucket_arrays_returns (rows : DataFrame) :
  (forall r, In r rows -> has_columns r = true) ->
  exists w arrs, bucket_arrays rows = (w, inr arrs).
Proof.
  intros H. unfold bucket_arrays.
  destruct (mapM_returns row_complex_with_phase rows) as (w & parsed & Hm).
  - intros r Hr. apply row_complex_with_phase_returns. auto.
  - rewrite Hm. simpl. eauto.
Qed.

(** The phase array of a bucket: the empty one-dimensional array for no
    row, else one row of 57 phases per trial. *)
Lemma bucket_arrays_shape (rows : DataFrame) w arrs :
  bucket_arrays rows = (w, inr arrs) ->
  (rows = [] /\ phases arrs = Arr1 []) \/
  (rows <> [] /\ exists m, phases arrs = Arr2 57 m /\
                          List.length m = List.length rows /\
                          Forall (fun r => List.length r = 57%nat) m).
Proof.
  intros H. apply bucket_arrays_inv in H as (parsed & Hlen & Hw & ->).
  destruct rows as [| r rows]; destruct parsed as [| ps parsed];
    simpl in Hlen; try discriminate.
  - left. auto.
  - right. split; [discriminate|]. simpl phases.
    exists (map (map (fun p => float_of_real (snd p))) (ps :: parsed)).
    inversion Hw as [| ? ? Hps Hrest]; subst.
    split; [| split].
    + simpl. rewrite length_map, Hps. reflexivity.
    + simpl. rewrite length_map. lia.
    + rewrite Forall_map. revert Hw. apply Forall_impl.
      intros a Ha. rewrite length_map. exact Ha.
Qed.

Variable self : EEGPhaseAnalysis.
Hypothesis conditions_NoDup : NoDup (map fst (trial_conditions self)).
Variable data : DataFrame.

Lemma bucket_rows_spec (c : string) (e : Z) (rows : DataFrame) :
  bucket_rows self data c e = Some rows <->
  exists lo hi,
    In (c, (lo, hi)) (trial_conditions self) /\
    1 <= e <= num_electrodes self /\
    rows = electrode_data (condition_subset data lo hi) e.
Proof.
  unfold bucket_rows. split.
  - destruct (dict_get String.eqb c (trial_conditions self)) as [[lo hi]|] eqn:E;
      [| discriminate].
    destruct ((1 <=? e) && (e <=? num_electrodes self)) eqn:Er; [| discriminate].
    intros H. inversion H; subst. exists lo, hi.
    split; [| split; [lia | reflexivity]].
    eapply dict_get_In; [apply String.eqb_eq | exact E].
  - intros (lo & hi & Hin & He & ->).
    rewrite (In_dict_get String.eqb String.eqb_eq c (lo, hi)) by assumption.
    replace ((1 <=? e) && (e <=? num_electrodes self)) with true by lia.
    reflexivity.
Qed.

Lemma preprocess_inner (lo hi : Z) w d :
  for_in Z.eqb (fun electrode : Z => electrode)
    (fun electrode => bucket_arrays (electrode_data (condition_subset data lo hi) electrode))
    (range 1 (num_electrodes self + 1)) [] = (w, inr d) ->
  Forall2 (stored_by (fun electrode : Z => electrode)
             (fun electrode =>
                bucket_arrays (electrode_data (condition_subset data lo hi) electrode)))
          (range 1 (num_electrodes self + 1)) d.
Proof.
  apply for_in_stored; [apply Z.eqb_eq | rewrite map_id; apply range_NoDup].
Qed.

(** What is stored under [c] and [e] comes from the rows of that bucket. *)
Lemma preprocess_get2 w pre (c : string) (e : Z) (arrs : electrode_arrays) :
  preprocess_data self data = (w, inr pre) ->
  get2 c e pre = Some arrs ->
  exists rows w',
    bucket_rows self data c e = Some rows /\
    bucket_arrays rows = (w', inr arrs).
Proof.
  unfold preprocess_data, get2. intros Hpre Hget.
  apply for_in_stored in Hpre; [| apply String.eqb_eq | assumption].
  destruct (dict_get String.eqb c pre) as [d|] eqn:Ec; [| discriminate].
  eapply stored_get in Ec; [| apply String.eqb_eq | exact Hpre].
  destruct Ec as ([c0 [lo hi]] & w1 & Hin & Hk & Hbody). simpl in Hk. subst c0.
  apply preprocess_inner in Hbody.
  eapply stored_get in Hget; [| apply Z.eqb_eq | exact Hbody].
  destruct Hget as (e0 & w2 & He0 & Heq & Hb). simpl in Heq. subst e0.
  apply range_In in He0.
  exists (electrode_data (condition_subset data lo hi) e), w2.
  split; [| assumption].
  apply bucket_rows_spec. exists lo, hi. split; [assumption | split; [lia | reflexivity]].
Qed.

(** Every pair the loops reach has its entry. *)
Lemma preprocess_keys w pre (c : string) (e : Z) (rows : DataFrame) :
  preprocess_data self data = (w, inr pre) ->
  bucket_rows self data c e = Some rows ->
  exists arrs w',
    get2 c e pre = Some arrs /\
    bucket_arrays rows = (w', inr arrs).
Proof.
  unfold preprocess_data, get2. intros Hpre Hrows.
  apply bucket_rows_spec in Hrows as (lo & hi & Hin & He & ->).
  apply for_in_stored in Hpre; [| apply String.eqb_eq | assumption].
  destruct (stored_In String.eqb String.eqb_eq _ _ _ _ _ conditions_NoDup Hpre Hin)
    as (d & w1 & Hget & Hbody).
  simpl in Hget. rewrite Hget.
  apply preprocess_inner in Hbody.
  assert (Hr : In e (range 1 (num_electrodes self + 1))) by (apply range_In; lia).
  assert (Hnd : NoDup (map (fun electrode : Z => electrode)
                            (range 1 (num_electrodes self + 1))))
    by (rewrite map_id; apply range_NoDup).
  destruct (stored_In Z.eqb Z.eqb_eq _ _ _ _ _ Hnd Hbody Hr)
    as (arrs & w2 & Hg & Hb).
  eauto.
Qed.

Lemma preprocess_returns :
  (forall r, In r data -> has_columns r = true) ->
  exists w pre, preprocess_data self data = (w, inr pre).
Proof.
  intros Hcols. unfold preprocess_data. apply for_in_returns.
  intros [c [lo hi]] _. apply for_in_returns.
  intros e _. apply bucket_arrays_returns.
  intros r Hr. apply Hcols.
  unfold electrode_data, condition_subset in Hr.
  apply filter_In in Hr as [Hr _]. apply filter_In in Hr as [Hr _]. exact Hr.
Qed.

End Preprocess.

(* ===================================================================== *)
(** * Grouping, the width of the phase matrix and the empty bucket        *)
(* ===================================================================== *)

Section Grouping.
Local Open Scope Z_scope.
Local Open Scope string_scope.

Lemma conditions_disjoint path nf ne c lo hi c' lo' hi' (s : Z) :
  In (c, (lo, hi)) (trial_conditions (init path nf ne)) ->
  In (c', (lo', hi')) (trial_conditions (init path nf ne)) ->
  lo <= s <= hi -> lo' <= s <= hi' -> c = c'.
Proof.
  simpl. intros H H' Hs Hs'.
  repeat (destruct H as [H | H]; [inversion H; subst; clear H |]); try tauto;
    repeat (destruct H' as [H' | H']; [inversion H'; subst; clear H' |]);
    try tauto; try reflexivity; lia.
Qed.

Lemma placed_spec (self : EEGPhaseAnalysis) (data : DataFrame) c e r :
  NoDup (map fst (trial_conditions self)) ->
  placed self data c e r <->
  exists lo hi,
    In (c, (lo, hi)) (trial_conditions self) /\
    1 <= e <= num_electrodes self /\
    In r data /\ lo <= stimuli r <= hi /\ electrode_number r = e.
Proof.
  intros Hnd. unfold placed. split.
  - intros (rows & Hrows & Hin).
    apply bucket_rows_spec in Hrows as (lo & hi & Hc & He & ->); [| assumption].
    unfold electrode_data, condition_subset in Hin.
    apply filter_In in Hin as [Hin Hel]. apply filter_In in Hin as [Hin Hst].
    exists lo, hi. repeat split; try assumption; lia.
  - intros (lo & hi & Hc & He & Hin & Hst & Hel).
    exists (electrode_data (condition_subset data lo hi) e). split.
    + apply bucket_rows_spec; [assumption|]. exists lo, hi. auto.
    + unfold electrode_data, condition_subset.
      apply filter_In. split; [apply filter_In; split; [assumption | lia] | lia].
Qed.

Lemma condition_names path nf ne c :
  In c ["GN"; "GS"; "UN"; "US"] ->
  exists lo hi, In (c, (lo, hi)) (trial_conditions (init path nf ne)).
Proof.
  simpl. intros [<- | [<- | [<- | [<- | []]]]]; do 2 eexists; eauto 6.
Qed.

(** C2, as the specification states it, fails: with the default 32
    electrodes, a row with stimulus 5 (inside the range of GN) and
    electrode number 33 is placed in no bucket. *)
Lemma row_of_unlisted_electrode_is_dropped :
  in_some_range main_analyzer (trial 5 33 (VStr "1+0i")) /\
  forall c e,
    ~ placed main_analyzer [trial 5 33 (VStr "1+0i")] c e (trial 5 33 (VStr "1+0i")).
Proof.
  split.
  - exists "GN", 1, 30. split; [reflexivity | simpl; lia].
  - intros c e H.
    apply placed_spec in H; [| apply init_conditions_NoDup].
    destruct H as (lo & hi & _ & He & _ & _ & Hel).
    unfold main_analyzer, default_num_electrodes in He.
    simpl in He, Hel. lia.
Qed.

(** C2, amended.  Grouping partitions the trials by the inclusive ranges
    GN 1-30, GS 31-60, UN 61-90, US 91-120 and by electrode: a row whose
    stimulus lies in the range of a condition (bounds included) and whose
    electrode number lies in 1..num_electrodes is placed in exactly one
    bucket, that of its condition and its electrode; a row is placed in
    no other bucket, so a row outside the four ranges, or with another
    electrode number, is in none; and every pair of a condition and an
    electrode of 1..num_electrodes has its entry in the result, holding
    one array row per placed trial, none when the bucket is empty. *)
Theorem grouping_partitions_trials path nf ne (data : DataFrame) :
  trial_conditions (init path nf ne)
    = [("GN", (1, 30)); ("GS", (31, 60)); ("UN", (61, 90)); ("US", (91, 120))] /\
  (forall r c lo hi,
      In r data ->
      In (c, (lo, hi)) (trial_conditions (init path nf ne)) ->
      lo <= stimuli r <= hi ->
      1 <= electrode_number r <= ne ->
      placed (init path nf ne) data c (electrode_number r) r /\
      forall c' e', placed (init path nf ne) data c' e' r ->
                    c' = c /\ e' = electrode_number r) /\
  (forall r c e,
      placed (init path nf ne) data c e r ->
      In r data /\ in_some_range (init path nf ne) r /\
      1 <= electrode_number r <= ne /\ e = electrode_number r) /\
  (forall w pre c e,
      preprocess_data (init path nf ne) data = (w, inr pre) ->
      In c ["GN"; "GS"; "UN"; "US"] -> 1 <= e <= ne ->
      exists arrs rows w',
        get2 c e pre = Some arrs /\
        bucket_rows (init path nf ne) data c e = Some rows /\
        bucket_arrays rows = (w', inr arrs) /\
        nrows (phases arrs) = List.length rows).
Proof.
  set (self := init path nf ne).
  pose proof (init_conditions_NoDup path nf ne) as Hnd. fold self in Hnd.
  split; [reflexivity|]. split; [| split].
  - intros r c lo hi Hin Hc Hst Hel. split.
    + apply placed_spec; [assumption|]. exists lo, hi. auto 6.
    + intros c' e' H. apply placed_spec in H; [| assumption].
      destruct H as (lo' & hi' & Hc' & _ & _ & Hst' & Hel'). split; [| auto].
      symmetry. eapply conditions_disjoint; eassumption.
  - intros r c e H. apply placed_spec in H; [| assumption].
    destruct H as (lo & hi & Hc & He & Hin & Hst & Hel).
    split; [assumption|]. split; [| simpl in He; lia].
    exists c, lo, hi. split; [| assumption].
    apply In_dict_get; [apply String.eqb_eq | assumption | assumption].
  - intros w pre c e Hpre Hc He.
    destruct (condition_names path nf ne c Hc) as (lo & hi & Hin).
    assert (Hrows : bucket_rows self data c e
                    = Some (electrode_data (condition_subset data lo hi) e)).
    { apply bucket_rows_spec; [assumption|]. exists lo, hi. auto. }
    destruct (preprocess_keys self Hnd data w pre c e _ Hpre Hrows)
      as (arrs & w' & Hget & Hb).
    exists arrs, (electrode_data (condition_subset data lo hi) e), w'.
    repeat split; try assumption.
    apply bucket_arrays_shape in Hb as [[-> ->] | (_ & m & -> & Hlen & _)];
      [reflexivity | exact Hlen].
Qed.

Lemma grouping_partitions_trials_witness :
  placed main_analyzer
         [trial 5 7 (VStr "1+0i"); trial 31 7 (VStr "0+1i")]
         "GS" 7 (trial 31 7 (VStr "0+1i")).
Proof.
  apply (proj1 (proj2 (grouping_partitions_trials
                         csv_path 58 32
                         [trial 5 7 (VStr "1+0i"); trial 31 7 (VStr "0+1i")]))
           (trial 31 7 (VStr "0+1i")) "GS" 31 60).
  - simpl. auto.
  - simpl. auto.
  - simpl. lia.
  - simpl. lia.
Defined.

End Grouping.

Section Analysis.
Local Open Scope Z_scope.
Local Open Scope string_scope.

Variable self : EEGPhaseAnalysis.
Hypothesis conditions_NoDup : NoDup (map fst (trial_conditions self)).
Variable data : DataFrame.

Lemma preprocess_outer_keys w pre :
  preprocess_data self data = (w, inr pre) ->
  NoDup (map fst pre).
Proof.
  unfold preprocess_data. intros H.
  apply for_in_stored in H; [| apply String.eqb_eq | assumption].
  rewrite (stored_keys _ _ _ _ H). assumption.
Qed.

Lemma preprocess_inner_keys w pre c d :
  preprocess_data self data = (w, inr pre) ->
  In (c, d) pre ->
  NoDup (map fst d).
Proof.
  unfold preprocess_data. intros H Hin.
  apply for_in_stored in H; [| apply String.eqb_eq | assumption].
  apply (In_dict_get String.eqb String.eqb_eq) in Hin;
    [| rewrite (stored_keys _ _ _ _ H); assumption].
  eapply stored_get in Hin; [| apply String.eqb_eq | exact H].
  destruct Hin as ([c0 [lo hi]] & w1 & _ & _ & Hbody).
  apply preprocess_inner in Hbody.
  rewrite (stored_keys _ _ _ _ Hbody), map_id. apply range_NoDup.
Qed.

(** The entry of the results under [c] and [e] is computed from the
    arrays [preprocess_data] stored there. *)
Lemma analyze_of_preprocess w0 pre w res c e arrs :
  preprocess_data self data = (w0, inr pre) ->
  analyze_itpc self data = (w, inr res) ->
  get2 c e pre = Some arrs ->
  exists entry,
    get2 c e res = Some entry /\
    compute_itpc (phases arrs) = inr (itpc entry) /\
    complex_data entry = complex_values arrs.
Proof.
  intros Hpre Han Hget. unfold analyze_itpc in Han.
  apply bindM_inr in Han as (w1 & pre' & w2 & Hpre' & Hloop & _).
  rewrite Hpre in Hpre'. inversion Hpre'; subst pre' w1. clear Hpre'.
  pose proof (preprocess_outer_keys _ _ Hpre) as Hnd.
  apply for_in_stored in Hloop; [| apply String.eqb_eq | assumption].
  unfold get2 in *.
  destruct (dict_get String.eqb c pre) as [d|] eqn:Ec; [| discriminate].
  apply (dict_get_In String.eqb String.eqb_eq) in Ec.
  pose proof (preprocess_inner_keys _ _ _ _ Hpre Ec) as Hnd'.
  destruct (stored_In String.eqb String.eqb_eq _ _ _ _ _ Hnd Hloop Ec)
    as (d' & w3 & Hg & Hbody).
  simpl in Hg. rewrite Hg. simpl in Hbody.
  apply for_in_stored in Hbody; [| apply Z.eqb_eq | assumption].
  apply (dict_get_In Z.eqb Z.eqb_eq) in Hget.
  destruct (stored_In Z.eqb Z.eqb_eq _ _ _ _ _ Hnd' Hbody Hget)
    as (entry & w4 & Hg' & Hb).
  simpl in Hg'. exists entry. split; [assumption|].
  unfold liftM in Hb. simpl in Hb.
  destruct (compute_itpc (phases arrs)) as [ex | a]; simpl in Hb; [discriminate|].
  inversion Hb; subst. auto.
Qed.

Lemma compute_itpc_of_bucket rows w arrs :
  bucket_arrays rows = (w, inr arrs) ->
  exists a, compute_itpc (phases arrs) = inr a.
Proof.
  intros H. apply bucket_arrays_shape in H as [[_ ->] | (_ & m & -> & _)].
  - rewrite compute_itpc_Arr1. eauto.
  - rewrite compute_itpc_Arr2. eauto.
Qed.

(** When [preprocess_data] returns, so does the analysis: no bucket, empty
    or not, makes [compute_itpc] raise. *)
Lemma analyze_returns w0 pre :
  preprocess_data self data = (w0, inr pre) ->
  exists w res, analyze_itpc self data = (w, inr res).
Proof.
  intros Hpre. unfold analyze_itpc. rewrite Hpre.
  assert (exists w res,
             for_in String.eqb fst
               (fun item : string * dict Z electrode_arrays =>
                  for_in Z.eqb fst
                    (fun e : Z * electrode_arrays =>
                       liftM (itpc <- compute_itpc (phases (snd e)) ;;
                              ret {| itpc := itpc;
                                     complex_data := complex_values (snd e) |}))
                    (snd item) [])
               pre [] = (w, inr res)) as (w & res & H).
  { apply for_in_returns. intros [c d] Hc. apply for_in_returns.
    intros [e arrs] He. simpl.
    assert (Hget : get2 c e pre = Some arrs).
    { unfold get2.
      rewrite (In_dict_get String.eqb String.eqb_eq c d pre
                 (preprocess_outer_keys _ _ Hpre) Hc).
      apply In_dict_get; [apply Z.eqb_eq | | assumption].
      eapply preprocess_inner_keys; eassumption. }
    destruct (preprocess_get2 self conditions_NoDup data _ _ _ _ _ Hpre Hget)
      as (rows & w' & _ & Hb).
    destruct (compute_itpc_of_bucket _ _ _ Hb) as (a & Ha).
    rewrite Ha. unfold liftM. simpl. eauto. }
  unfold bindM. rewrite H. eauto.
Qed.

Lemma export_data_In (res : dict string (dict Z itpc_entry)) c e entry :
  get2 c e res = Some entry ->
  In {| Condition := c; Electrode := e; ITPC := export_value (itpc entry) |}
     (export_data res).
Proof.
  unfold get2, export_data. intros H.
  destruct (dict_get String.eqb c res) as [d|] eqn:Ec; [| discriminate].
  apply (dict_get_In String.eqb String.eqb_eq) in Ec.
  apply (dict_get_In Z.eqb Z.eqb_eq) in H.
  apply in_flat_map. exists (c, d). split; [assumption|].
  apply in_map_iff. exists (e, entry). auto.
Qed.

(** The ITPC of an empty bucket, from the table to the exported row. *)
Lemma empty_bucket_scalar_nan w res c e :
  analyze_itpc self data = (w, inr res) ->
  bucket_rows self data c e = Some [] ->
  exists entry,
    get2 c e res = Some entry /\
    itpc entry = Arr0 NaN /\
    In {| Condition := c; Electrode := e; ITPC := LScalar NaN |} (export_data res).
Proof.
  intros Han Hrows.
  assert (exists w0 pre, preprocess_data self data = (w0, inr pre))
    as (w0 & pre & Hpre).
  { unfold analyze_itpc in Han.
    apply bindM_inr in Han as (w1 & pre & _ & Hpre & _). eauto. }
  destruct (preprocess_keys self conditions_NoDup data _ _ _ _ _ Hpre Hrows)
    as (arrs & w' & Hget & Hb).
  destruct (analyze_of_preprocess _ _ _ _ _ _ _ Hpre Han Hget)
    as (entry & Hentry & Hitpc & _).
  apply bucket_arrays_shape in Hb as [[_ Hph] | [Hne _]]; [| congruence].
  rewrite Hph in Hitpc. change (Arr1 (@nil pyfloat)) with (@np_array pyfloat []) in Hitpc.
  rewrite compute_itpc_empty in Hitpc. inversion Hitpc as [Hi].
  exists entry. split; [assumption|]. split; [symmetry; exact Hi|].
  pose proof (export_data_In res c e entry Hentry) as Hexp.
  rewrite <- Hi in Hexp. exact Hexp.
Qed.

End Analysis.

Section EmptyBucketAndWidth.
Local Open Scope Z_scope.
Local Open Scope string_scope.

Lemma has_columns_trial stim elec v : has_columns (trial stim elec v) = true.
Proof. reflexivity. Qed.

Lemma frequencies_length path nf ne :
  List.length (frequencies (init path nf ne)) = 58%nat.
Proof. reflexivity. Qed.

(** C5, as the specification states it, fails: for the empty table,
    whose buckets all have zero trials, the analysis returns and the
    ITPC stored for (GN, 1) is a single NaN of dimension 0, not a vector
    of 57 (or 58) NaNs. *)
Lemma empty_bucket_is_not_a_vector :
  exists w res entry,
    analyze_itpc main_analyzer [] = (w, inr res) /\
    get2 "GN" 1 res = Some entry /\
    itpc entry = Arr0 NaN /\
    itpc entry <> Arr1 (repeat NaN 57) /\
    itpc entry <> Arr1 (repeat NaN 58).
Proof.
  pose proof (init_conditions_NoDup csv_path 58 32) as Hnd.
  destruct (preprocess_returns main_analyzer []) as (w0 & pre & Hpre); [intros r []|].
  destruct (analyze_returns main_analyzer Hnd [] w0 pre Hpre) as (w & res & Han).
  destruct (empty_bucket_scalar_nan main_analyzer Hnd [] w res "GN" 1 Han eq_refl)
    as (entry & Hget & Hitpc & _).
  exists w, res, entry. rewrite Hitpc.
  repeat split; try assumption; discriminate.
Qed.

(** C5, amended.  For a (condition, electrode) bucket with zero trials
    the ITPC computation does not raise and yields one NaN: the phase
    array of the bucket has the shape (0,), not (0, F), so the result is a
    scalar and not a vector with one NaN per frequency.  The NaN is
    stored in the results and exported as it is, neither replaced by 0
    nor dropped. *)
Theorem empty_bucket_yields_scalar_nan path nf ne (data : DataFrame) w0 pre c e :
  preprocess_data (init path nf ne) data = (w0, inr pre) ->
  bucket_rows (init path nf ne) data c e = Some [] ->
  exists arrs w res entry,
    get2 c e pre = Some arrs /\
    phases arrs = Arr1 [] /\
    compute_itpc (phases arrs) = inr (Arr0 NaN) /\
    analyze_itpc (init path nf ne) data = (w, inr res) /\
    get2 c e res = Some entry /\
    itpc entry = Arr0 NaN /\
    In {| Condition := c; Electrode := e; ITPC := LScalar NaN |} (export_data res).
Proof.
  intros Hpre Hrows.
  pose proof (init_conditions_NoDup path nf ne) as Hnd.
  destruct (preprocess_keys _ Hnd data _ _ _ _ _ Hpre Hrows)
    as (arrs & w' & Hget & Hb).
  apply bucket_arrays_shape in Hb as [[_ Hph] | [Hne _]]; [| congruence].
  destruct (analyze_returns _ Hnd data w0 pre Hpre) as (w & res & Han).
  destruct (empty_bucket_scalar_nan _ Hnd data w res c e Han Hrows)
    as (entry & Hentry & Hitpc & Hexp).
  exists arrs, w, res, entry. repeat split; try assumption.
  rewrite Hph. apply compute_itpc_empty.
Qed.

Lemma empty_bucket_yields_scalar_nan_witness :
  bucket_rows two_electrode_analyzer [trial 5 1 (VStr "1+0i")] "GN" 2 = Some [] /\
  exists w res entry,
    analyze_itpc two_electrode_analyzer [trial 5 1 (VStr "1+0i")] = (w, inr res) /\
    get2 "GN" 2 res = Some entry /\
    itpc entry = Arr0 NaN.
Proof.
  split; [reflexivity|].
  destruct (preprocess_returns two_electrode_analyzer [trial 5 1 (VStr "1+0i")])
    as (w0 & pre & Hpre).
  - intros r [<- | []]. reflexivity.
  - destruct (empty_bucket_yields_scalar_nan
                csv_path 10 2 [trial 5 1 (VStr "1+0i")] w0 pre "GN" 2
                Hpre eq_refl)
      as (arrs & w & res & entry & _ & _ & _ & Han & Hget & Hitpc & _).
    exists w, res, entry. auto.
Defined.



End EmptyBucketAndWidth.

Section Scenarios.
Local Open Scope Z_scope.
Local Open Scope string_scope.

(** A trial with empty cells (pandas reads an empty cell as the float
    NaN): every phase of the row is NaN, and so is the ITPC of the bucket
    at all 57 frequencies. *)
Example empty_cells_give_nan_itpc :
  exists w pre arrs,
    preprocess_data two_electrode_analyzer [trial 5 1 (VFloat NaN)] = (w, inr pre) /\
    get2 "GN" 1 pre = Some arrs /\
    phases arrs = np_array [repeat NaN 57] /\
    compute_itpc (phases arrs) = inr (Arr1 (repeat NaN 57)).
Proof.
  do 3 eexists. split; [vm_compute; reflexivity|].
  split; [vm_compute; reflexivity|].
  split; [reflexivity|].
  match goal with
  | |- compute_itpc ?a = _ => replace a with (np_array [repeat NaN 57]) by reflexivity
  end.
  rewrite compute_itpc_one_row. reflexivity.
Qed.

(** The unparseable cell "abc": the parser falls back to (0+0j, 0) and
    the bucket is computed with that value; a single trial of phase 0
    has ITPC 1. *)
Example unparseable_cells_do_not_stop_the_bucket :
  exists w pre arrs,
    preprocess_data two_electrode_analyzer [trial 5 1 (VStr "abc")] = (w, inr pre) /\
    List.length w = 57%nat /\
    get2 "GN" 1 pre = Some arrs /\
    phases arrs = np_array [repeat (Zero false) 57] /\
    compute_itpc (phases arrs) = inr (Arr1 (repeat (Num 1%R) 57)).
Proof.
  do 3 eexists. split; [vm_compute; reflexivity|].
  split; [reflexivity|].
  split; [vm_compute; reflexivity|].
  split; [reflexivity|].
  match goal with
  | |- compute_itpc ?a = _ =>
      replace a with (np_array [repeat (Zero false) 57]) by reflexivity
  end.
  rewrite compute_itpc_one_row. reflexivity.
Qed.

End Scenarios.

Section QuadrantScenario.
Local Open Scope R_scope.
Local Open Scope string_scope.

Lemma Rzerob_0 : Rzerob 0 = true.
Proof. apply Rzerob_true. reflexivity. Qed.

Lemma Rzerob_neg1 : Rzerob (-1) = false.
Proof. apply Rzerob_false. lra. Qed.

Lemma Rltb_1_0 : Rltb 1 0 = false.
Proof. apply Rltb_false. lra. Qed.

Lemma atan2_0_1 : atan2 (Zero false) (Num 1) = Zero false.
Proof. unfold atan2. simpl. rewrite Rltb_1_0. reflexivity. Qed.

Lemma atan2_1_0 : atan2 (Num 1) (Zero false) = Num (PI / 2).
Proof.
  unfold atan2, libm_atan2. simpl. rewrite Rzerob_1. simpl.
  rewrite Rzerob_0, Rltb_1_0. reflexivity.
Qed.

Lemma atan2_0_neg1 : atan2 (Zero false) (Num (-1)) = Num PI.
Proof.
  unfold atan2. simpl. rewrite Rltb_neg1. simpl.
  rewrite Rabs_right; [reflexivity|]. pose proof PI_RGT_0. lra.
Qed.

Lemma atan2_neg1_0 : atan2 (Num (-1)) (Zero false) = Num (- (PI / 2)).
Proof.
  unfold atan2, libm_atan2. simpl. rewrite Rzerob_neg1. simpl.
  rewrite Rzerob_0, Rltb_neg1. reflexivity.
Qed.

Lemma dec_value_1 : PyStr.dec_value false 1 0 = Num 1.
Proof. unfold PyStr.dec_value. simpl. f_equal. lra. Qed.

Lemma dec_value_neg1 : PyStr.dec_value true 1 0 = Num (-1).
Proof. unfold PyStr.dec_value. simpl. f_equal. lra. Qed.

(** The cells of the four single-trial buckets of the specification's
    scenario: the phases are 0, pi/2, pi and -pi/2. *)
Example four_quadrant_cells :
  parse_complex_value (VStr "1+0j")
    = ([], inr (Complex (Num 1) (Zero false), PyFloat (Zero false))) /\
  parse_complex_value (VStr "0+1j")
    = ([], inr (Complex (Zero false) (Num 1), PyFloat (Num (PI / 2)))) /\
  parse_complex_value (VStr "-1+0j")
    = ([], inr (Complex (Num (-1)) (Zero false), PyFloat (Num PI))) /\
  parse_complex_value (VStr "0-1j")
    = ([], inr (Complex (Zero false) (Num (-1)), PyFloat (Num (- (PI / 2))))).
Proof.
  repeat split; unfold parse_complex_value.
  - replace (try_block (VStr "1+0j"))
      with (VStr "1+0j",
            @inr exn _ (Complex (PyStr.dec_value false 1 0) (Zero false),
                        PyFloat (phase (Complex (PyStr.dec_value false 1 0) (Zero false)))))
      by reflexivity.
    rewrite dec_value_1. unfold phase. cbn [real imag].
    rewrite atan2_0_1. reflexivity.
  - replace (try_block (VStr "0+1j"))
      with (VStr "0+1j",
            @inr exn _ (Complex (Zero false) (PyStr.dec_value false 1 0),
                        PyFloat (phase (Complex (Zero false) (PyStr.dec_value false 1 0)))))
      by reflexivity.
    rewrite dec_value_1. unfold phase. cbn [real imag].
    rewrite atan2_1_0. reflexivity.
  - replace (try_block (VStr "-1+0j"))
      with (VStr "-1+0j",
            @inr exn _ (Complex (PyStr.dec_value true 1 0) (Zero false),
                        PyFloat (phase (Complex (PyStr.dec_value true 1 0) (Zero false)))))
      by reflexivity.
    rewrite dec_value_neg1. unfold phase. cbn [real imag].
    rewrite atan2_0_neg1. reflexivity.
  - replace (try_block (VStr "0-1j"))
      with (VStr "0-1j",
            @inr exn _ (Complex (Zero false) (PyStr.dec_value true 1 0),
                        PyFloat (phase (Complex (Zero false) (PyStr.dec_value true 1 0)))))
      by reflexivity.
    rewrite dec_value_neg1. unfold phase. cbn [real imag].
    rewrite atan2_neg1_0. reflexivity.
Qed.

End QuadrantScenario.

(* ===================================================================== *)
(** * More on the cell parser                                             *)
(* ===================================================================== *)

Section ParserMore.
Local Open Scope string_scope.
Local Open Scope char_scope.


Lemma chars_str (l : list ascii) : PyStr.chars (PyStr.str l) = l.
Proof. apply list_ascii_of_string_of_list_ascii. Qed.

Lemma str_chars (s : string) : PyStr.str (PyStr.chars s) = s.
Proof. apply string_of_list_ascii_of_string. Qed.

Lemma chars_append (a b : string) :
  PyStr.chars (a ++ b) = (PyStr.chars a ++ PyStr.chars b)%list.
Proof.
  unfold PyStr.chars. induction a as [| c a IH]; simpl; [reflexivity|].
  rewrite IH. reflexivity.
Qed.

Lemma lstrip_chars_map (f : ascii -> ascii) (set l : list ascii) :
  (forall c, PyStr.mem (f c) set = PyStr.mem c set) ->
  PyStr.lstrip_chars set (map f l) = map f (PyStr.lstrip_chars set l).
Proof.
  intros Hf. induction l as [| c l IH]; simpl; [reflexivity|].
  rewrite Hf. destruct (PyStr.mem c set); [exact IH | reflexivity].
Qed.

Lemma rstrip_chars_map (f : ascii -> ascii) (set l : list ascii) :
  (forall c, PyStr.mem (f c) set = PyStr.mem c set) ->
  PyStr.rstrip_chars set (map f l) = map f (PyStr.rstrip_chars set l).
Proof.
  intros Hf. unfold PyStr.rstrip_chars.
  rewrite <- map_rev, lstrip_chars_map by assumption. symmetry. apply map_rev.
Qed.

End ParserMore.

Section UnitSuffix.
Local Open Scope string_scope.
Local Open Scope char_scope.

Lemma replace_i_j (s : string) :
  PyStr.replace "i" "j" s = PyStr.str (map i_to_j (PyStr.chars s)).
Proof. reflexivity. Qed.

Lemma mem_i_to_j (c : ascii) :
  PyStr.mem (i_to_j c) (PyStr.chars quotes_and_brackets)
  = PyStr.mem c (PyStr.chars quotes_and_brackets).
Proof.
  unfold i_to_j. destruct (Ascii.eqb c "i") eqn:E; [| reflexivity].
  apply Ascii.eqb_eq in E. subst c. reflexivity.
Qed.

Lemma strip_replace (s : string) :
  PyStr.strip quotes_and_brackets (PyStr.replace "i" "j" s)
  = PyStr.replace "i" "j" (PyStr.strip quotes_and_brackets s).
Proof.
  rewrite !replace_i_j. unfold PyStr.strip. rewrite !chars_str.
  rewrite lstrip_chars_map, rstrip_chars_map by apply mem_i_to_j.
  reflexivity.
Qed.

Lemma i_to_j_idem (c : ascii) : i_to_j (i_to_j c) = i_to_j c.
Proof.
  unfold i_to_j. destruct (Ascii.eqb c "i") eqn:E; [reflexivity|].
  rewrite E. reflexivity.
Qed.

Lemma replace_idem (s : string) :
  PyStr.replace "i" "j" (PyStr.replace "i" "j" s) = PyStr.replace "i" "j" s.
Proof.
  rewrite !replace_i_j, chars_str, map_map. f_equal.
  apply map_ext. apply i_to_j_idem.
Qed.

Lemma mem_cons (c x : ascii) (l : list ascii) :
  PyStr.mem c (x :: l) = Ascii.eqb c x || PyStr.mem c l.
Proof. reflexivity. Qed.

Lemma mem_i_map (l : list ascii) : PyStr.mem "i" (map i_to_j l) = false.
Proof.
  induction l as [| c l IH]; [reflexivity|].
  cbn [map]. rewrite mem_cons, IH, orb_false_r.
  unfold i_to_j. destruct (Ascii.eqb c "i") eqn:E; [reflexivity|].
  rewrite Ascii.eqb_sym. exact E.
Qed.

Lemma mem_j_map (l : list ascii) :
  PyStr.mem "j" (map i_to_j l) = PyStr.mem "i" l || PyStr.mem "j" l.
Proof.
  induction l as [| c l IH]; [reflexivity|].
  cbn [map]. rewrite !mem_cons, IH. unfold i_to_j.
  destruct (Ascii.eqb c "i") eqn:E.
  - apply Ascii.eqb_eq in E. subst c. reflexivity.
  - rewrite (Ascii.eqb_sym "i" c), E. cbn [orb].
    destruct (Ascii.eqb "j" c); destruct (PyStr.mem "i" l); reflexivity.
Qed.

Lemma contains_i_replace (s : string) :
  PyStr.contains "i" (PyStr.replace "i" "j" s) = false.
Proof.
  unfold PyStr.contains. rewrite replace_i_j, chars_str. apply mem_i_map.
Qed.

Lemma contains_j_replace (s : string) :
  PyStr.contains "j" (PyStr.replace "i" "j" s)
  = PyStr.contains "i" s || PyStr.contains "j" s.
Proof.
  unfold PyStr.contains. rewrite replace_i_j, chars_str. apply mem_j_map.
Qed.

Lemma map_i_to_j_id (l : list ascii) :
  PyStr.mem "i" l = false -> map i_to_j l = l.
Proof.
  induction l as [| c l IH]; [reflexivity|].
  rewrite mem_cons. intros H. apply orb_false_elim in H as [Hc Hl].
  cbn [map]. rewrite IH by assumption. f_equal.
  unfold i_to_j. rewrite Ascii.eqb_sym, Hc. reflexivity.
Qed.

Lemma replace_id (s : string) :
  PyStr.contains "i" s = false -> PyStr.replace "i" "j" s = s.
Proof.
  unfold PyStr.contains. intros H.
  rewrite replace_i_j, map_i_to_j_id by assumption. apply str_chars.
Qed.

Lemma string_branch_replace (s : string) :
  string_branch (PyStr.replace "i" "j" s) = string_branch s.
Proof.
  unfold string_branch. rewrite strip_replace.
  set (v := PyStr.strip quotes_and_brackets s).
  rewrite contains_i_replace, contains_j_replace. simpl orb.
  destruct (PyStr.contains "i" v) eqn:Hi; simpl orb.
  - rewrite replace_idem. reflexivity.
  - destruct (PyStr.contains "j" v) eqn:Hj.
    + rewrite replace_idem. reflexivity.
    + rewrite replace_id by assumption. reflexivity.
Qed.

(** The imaginary unit may be written [i] or [j]: a string cell and the
    same cell with every [i] turned into [j] give the same result and the
    same printed line. *)
Theorem unit_suffix_i_or_j (s : string) :
  parse_complex_value (VStr (PyStr.replace "i" "j" s)) = parse_complex_value (VStr s).
Proof.
  unfold parse_complex_value, try_block. rewrite string_branch_replace.
  reflexivity.
Qed.

End UnitSuffix.

Section ParserInvariants.
Local Open Scope string_scope.

Lemma two_elements_consistent v0 v1 z p :
  two_elements v0 v1 = inr (z, p) -> p = PyFloat (phase z).
Proof.
  intros H. apply two_elements_phase in H as (re & im & -> & ->). reflexivity.
Qed.

Lemma string_branch_consistent s v' z p :
  string_branch s = (v', inr (z, p)) ->
  p = PyFloat (phase z) \/ (p = PyInt 0 /\ imag z = Zero false).
Proof.
  unfold string_branch.
  destruct (_ || _); intros H; apply pair_equal_spec in H as [Hv Hr].
  - left. eapply complex_branch_phase. eassumption.
  - right. apply bind_inr in Hr as [re [_ Hr]]. inversion Hr; subst. auto.
Qed.

Lemma try_block_consistent val v' z p :
  try_block val = (v', inr (z, p)) ->
  p = PyFloat (phase z) \/ (p = PyInt 0 /\ imag z = Zero false).
Proof.
  assert (Hgen : forall v, (v, complex_num <- py_complex v ;;
                               ret (complex_num, PyFloat (phase complex_num)))
                           = (v', inr (z, p)) ->
                           p = PyFloat (phase z) \/ (p = PyInt 0 /\ imag z = Zero false)).
  { intros v H. apply pair_equal_spec in H as [Hv Hr].
    left. eapply complex_branch_phase. eassumption. }
  unfold try_block.
  destruct val as [c | x | n | b | s | l | l | ]; cbv beta iota zeta;
    try exact (Hgen _); try exact (string_branch_consistent _ _ _ _).
  destruct l as [| v0 [| v1 [| v2 l]]]; cbv beta iota zeta;
    try exact (Hgen _).
  - destruct v0; try exact (Hgen _); exact (string_branch_consistent _ _ _ _).
  - intros H. apply pair_equal_spec in H as [Hv Hr].
    left. eapply two_elements_consistent. eassumption.
Qed.

(** The two values returned agree: the phase is [cmath.phase] of the
    complex number returned, or it is the literal 0 and then the imaginary
    part returned is +0.0 (the bare real string and the fallback). *)
Theorem returned_phase_matches_returned_value (val : pyval) :
  exists z p,
    snd (parse_complex_value val) = inr (z, p) /\
    (p = PyFloat (phase z) \/ (p = PyInt 0 /\ imag z = Zero false)).
Proof.
  unfold parse_complex_value.
  destruct (try_block val) as [v' [e | [z p]]] eqn:E; simpl.
  - exists czero, (PyInt 0). split; [reflexivity | right; auto].
  - exists z, p. split; [reflexivity|]. eapply try_block_consistent. eassumption.
Qed.



Lemma lstrip_chars_all (set a : list ascii) :
  forallb (fun c => PyStr.mem c set) a = true -> PyStr.lstrip_chars set a = [].
Proof.
  induction a as [| c a IH]; simpl; [reflexivity|].
  intros H. apply andb_prop in H as [Hc Ha]. rewrite Hc. auto.
Qed.

Lemma lstrip_chars_app_l (set a l : list ascii) :
  forallb (fun c => PyStr.mem c set) a = true ->
  PyStr.lstrip_chars set (a ++ l) = PyStr.lstrip_chars set l.
Proof.
  induction a as [| c a IH]; simpl; [reflexivity|].
  intros H. apply andb_prop in H as [Hc Ha]. rewrite Hc. auto.
Qed.

Lemma rstrip_chars_app_r (set l b : list ascii) :
  forallb (fun c => PyStr.mem c set) b = true ->
  PyStr.rstrip_chars set (l ++ b) = PyStr.rstrip_chars set l.
Proof.
  intros H. unfold PyStr.rstrip_chars. rewrite rev_app_distr.
  rewrite lstrip_chars_app_l; [reflexivity|].
  rewrite forallb_forall in *. intros c Hc. apply H. apply in_rev. assumption.
Qed.

Lemma strip_chars_app_r (set l b : list ascii) :
  forallb (fun c => PyStr.mem c set) b = true ->
  PyStr.rstrip_chars set (PyStr.lstrip_chars set (l ++ b))
  = PyStr.rstrip_chars set (PyStr.lstrip_chars set l).
Proof.
  intros H. induction l as [| c l IH]; simpl.
  - rewrite lstrip_chars_all by assumption. reflexivity.
  - destruct (PyStr.mem c set); [exact IH|].
    apply (rstrip_chars_app_r set (c :: l) b H).
Qed.

Lemma strip_wrapped (a s b : string) :
  only_quotes_and_brackets a = true ->
  only_quotes_and_brackets b = true ->
  PyStr.strip quotes_and_brackets (a ++ s ++ b) = PyStr.strip quotes_and_brackets s.
Proof.
  unfold only_quotes_and_brackets, PyStr.strip. intros Ha Hb.
  rewrite !chars_append, lstrip_chars_app_l, strip_chars_app_r by assumption.
  reflexivity.
Qed.

(** Quotes and square brackets around a string cell, in any number and
    order, do not change the result nor the printed line. *)
Theorem surrounding_quotes_and_brackets_ignored (a s b : string) :
  only_quotes_and_brackets a = true ->
  only_quotes_and_brackets b = true ->
  parse_complex_value (VStr (a ++ s ++ b)) = parse_complex_value (VStr s).
Proof.
  intros Ha Hb. unfold parse_complex_value, try_block, string_branch.
  rewrite strip_wrapped by assumption. reflexivity.
Qed.

Lemma surrounding_quotes_and_brackets_ignored_witness :
  parse_complex_value (VStr ("['" ++ "3+4i" ++ "']"))
  = parse_complex_value (VStr "3+4i").
Proof.
  apply (surrounding_quotes_and_brackets_ignored "['" "3+4i" "']"); reflexivity.
Defined.

End ParserInvariants.

(* ===================================================================== *)
(** * More on [compute_itpc]                                              *)
(* ===================================================================== *)

Section ComputeItpcMore.
Local Open Scope R_scope.

(** [compute_itpc] raises on an array of dimension 0 and on no other
    array; the result has the shape of its argument without the first
    axis: one value per column, whatever the number of trials. *)
Theorem compute_itpc_drops_the_trial_axis (a : ndarray pyfloat) :
  match a with
  | Arr0 _ => compute_itpc a = inl AxisError
  | _ => exists r, compute_itpc a = inr r /\ shape r = tl (shape a)
  end.
Proof.
  destruct a as [x | v | w rows].
  - reflexivity.
  - rewrite compute_itpc_Arr1. eexists. split; reflexivity.
  - rewrite compute_itpc_Arr2. eexists. split; [reflexivity|].
    simpl. rewrite length_map, length_seq. reflexivity.
Qed.









Lemma is_finite_fneg (x : pyfloat) : is_finite (fneg x) = is_finite x.
Proof. destruct x; reflexivity. Qed.

Lemma real_of_fneg (x : pyfloat) : real_of (fneg x) = - real_of x.
Proof. destruct x; unfold real_of; simpl; lra. Qed.

Lemma all_finite_fneg (col : list pyfloat) :
  all_finite (map fneg col) = all_finite col.
Proof.
  unfold all_finite. induction col as [| x col IH]; simpl; [reflexivity|].
  rewrite is_finite_fneg, IH. reflexivity.
Qed.

Lemma sum_cos_neg (l : list R) : sum_cos (map Ropp l) = sum_cos l.
Proof.
  unfold sum_cos. induction l as [| t l IH]; simpl; [reflexivity|].
  rewrite IH, cos_neg. reflexivity.
Qed.

Lemma sum_sin_neg (l : list R) : sum_sin (map Ropp l) = - sum_sin l.
Proof.
  unfold sum_sin. induction l as [| t l IH]; simpl; [lra|].
  rewrite IH, sin_neg. lra.
Qed.

Lemma resultant_length_neg (l : list R) (n : nat) :
  resultant_length (map Ropp l) n = resultant_length l n.
Proof.
  unfold resultant_length. rewrite sum_cos_neg, sum_sin_neg.
  f_equal. unfold Rdiv. ring.
Qed.

Lemma column_itpc_neg (col : list pyfloat) (n : nat) :
  (1 <= n)%nat \/ col = [] ->
  column_itpc (map fneg col) n = column_itpc col n.
Proof.
  intros [Hn | ->]; [| reflexivity].
  destruct (all_finite col) eqn:Hfin.
  - rewrite !column_itpc_finite by (rewrite ?all_finite_fneg; assumption).
    rewrite map_map.
    rewrite (map_ext (fun x => real_of (fneg x)) (fun x => - real_of x) real_of_fneg).
    rewrite <- (map_map real_of Ropp). rewrite resultant_length_neg. reflexivity.
  - rewrite !column_itpc_not_finite by (rewrite ?all_finite_fneg; assumption).
    reflexivity.
Qed.

(** Changing the sign of every phase (the complex conjugate of every
    coefficient) leaves the ITPC unchanged. *)
Theorem compute_itpc_conjugation_invariant (phases : ndarray pyfloat) :
  compute_itpc (np_map fneg phases) = compute_itpc phases.
Proof.
  destruct phases as [x | v | w rows]; unfold np_map.
  - reflexivity.
  - rewrite !compute_itpc_Arr1, length_map. do 2 f_equal.
    apply column_itpc_neg. destruct v; [right; reflexivity | left; simpl; lia].
  - rewrite !compute_itpc_Arr2, length_map. do 2 f_equal.
    apply map_ext. intros j. rewrite column_map.
    apply column_itpc_neg.
    destruct rows; [right; apply column_nil | left; simpl; lia].
Qed.








End ComputeItpcMore.

(* ===================================================================== *)
(** * More on [preprocess_data]                                           *)
(* ===================================================================== *)

Section Failures.
Context {X K V : Type}.
Variable eqb : K -> K -> bool.
Variable key : X -> K.
Variable body : X -> M V.



End Failures.

Section MapMFailures.
Context {A B : Type}.
Variable f : A -> M B.


End MapMFailures.


Lemma Forall2_In_r {A C} (R : A -> C -> Prop) (l : list A) (l' : list C) (c : C) :
  Forall2 R l l' -> In c l' -> exists a, In a l /\ R a c.
Proof.
  induction 1 as [| x y l l' Hxy _ IH]; simpl; [tauto|].
  intros [-> | Hin]; [eauto|].
  destruct (IH Hin) as (a & Ha & Hr). eauto.
Qed.


Section CellLookups.
Local Open Scope string_scope.







End CellLookups.

Section PreprocessFailures.
Local Open Scope Z_scope.
Local Open Scope string_scope.

Variable self : EEGPhaseAnalysis.
Hypothesis conditions_NoDup : NoDup (map fst (trial_conditions self)).
Variable data : DataFrame.





End PreprocessFailures.

Section PreprocessTheorems.
Local Open Scope Z_scope.
Local Open Scope string_scope.





End PreprocessTheorems.

(* ===================================================================== *)
(** * More on [analyze_itpc] and the exported rows                        *)
(* ===================================================================== *)

Section ResultStructure.
Local Open Scope Z_scope.
Local Open Scope string_scope.

Variable self : EEGPhaseAnalysis.
Hypothesis conditions_NoDup : NoDup (map fst (trial_conditions self)).
Variable data : DataFrame.

Lemma Forall2_compose {A B C} (R : A -> B -> Prop) (S : B -> C -> Prop)
    (l1 : list A) (l2 : list B) (l3 : list C) :
  Forall2 R l1 l2 -> Forall2 S l2 l3 ->
  Forall2 (fun a c => exists b, R a b /\ S b c) l1 l3.
Proof.
  intros H. revert l3. induction H as [| a b l1 l2 Hab _ IH]; intros l3 H3.
  - inversion H3. constructor.
  - inversion H3; subst. constructor; eauto.
Qed.

Lemma Forall2_Forall_l {A B} (P : A -> Prop) (R S : A -> B -> Prop)
    (l : list A) (l' : list B) :
  Forall P l -> Forall2 R l l' ->
  (forall a b, P a -> R a b -> S a b) ->
  Forall2 S l l'.
Proof.
  intros HP HR Himp. induction HR as [| a b l l' Hab _ IH]; [constructor|].
  inversion HP; subst. constructor; auto.
Qed.

(** The dictionary [preprocess_data] returns, entry by entry. *)
Lemma preprocess_structure w pre :
  preprocess_data self data = (w, inr pre) ->
  Forall2 (fun (item : string * (Z * Z)) (cd : string * dict Z electrode_arrays) =>
             fst cd = fst item /\
             Forall2 (fun (el : Z) (ea : Z * electrode_arrays) =>
                        fst ea = el /\
                        exists w',
                          bucket_arrays
                            (electrode_data
                               (condition_subset data (fst (snd item)) (snd (snd item))) el)
                          = (w', inr (snd ea)))
                     (range 1 (num_electrodes self + 1)) (snd cd))
          (trial_conditions self) pre.
Proof.
  unfold preprocess_data. intros H.
  apply for_in_stored in H; [| apply String.eqb_eq | assumption].
  revert H. apply Forall2_impl.
  intros [c [lo hi]] [c' d] [Hk [w' Hb]]. simpl in *. split; [assumption|].
  apply preprocess_inner in Hb. revert Hb. apply Forall2_impl.
  intros el [el' arrs] [Hk' Hb']. simpl in *. auto.
Qed.

(** The dictionary [analyze_itpc] returns, entry by entry. *)
Lemma analyze_structure w0 pre w res :
  preprocess_data self data = (w0, inr pre) ->
  analyze_itpc self data = (w, inr res) ->
  Forall2 (fun (cd : string * dict Z electrode_arrays) (cr : string * dict Z itpc_entry) =>
             fst cr = fst cd /\
             Forall2 (fun (ea : Z * electrode_arrays) (ee : Z * itpc_entry) =>
                        fst ee = fst ea /\
                        compute_itpc (phases (snd ea)) = inr (itpc (snd ee)) /\
                        complex_data (snd ee) = complex_values (snd ea))
                     (snd cd) (snd cr))
          pre res.
Proof.
  intros Hpre Han. unfold analyze_itpc in Han.
  apply bindM_inr in Han as (w1 & pre' & w2 & Hpre' & Hloop & _).
  rewrite Hpre in Hpre'. inversion Hpre'; subst pre' w1. clear Hpre'.
  pose proof (preprocess_outer_keys self conditions_NoDup data _ _ Hpre) as Hnd.
  apply for_in_stored in Hloop; [| apply String.eqb_eq | assumption].
  assert (Hinner : Forall (fun cd : string * dict Z electrode_arrays =>
                             NoDup (map fst (snd cd))) pre).
  { apply Forall_forall. intros [c d] Hin. simpl.
    eapply preprocess_inner_keys; eassumption. }
  eapply Forall2_Forall_l; [exact Hinner | exact Hloop |].
  intros [c d] [c' d'] Hd [Hk [w' Hb]]. simpl in *. split; [assumption|].
  apply for_in_stored in Hb; [| apply Z.eqb_eq | assumption].
  revert Hb. apply Forall2_impl.
  intros [el arrs] [el' entry] [Hk' [w'' Hb']]. simpl in *.
  split; [assumption|]. unfold liftM in Hb'.
  destruct (compute_itpc (phases arrs)) as [ex | a]; simpl in Hb'; [discriminate|].
  inversion Hb'; subst. auto.
Qed.

Lemma map_fst_Forall2 {A B C} (R : A * B -> A * C -> Prop)
    (l : list (A * B)) (l' : list (A * C)) :
  Forall2 (fun x y => fst y = fst x /\ R x y) l l' -> map fst l' = map fst l.
Proof. induction 1 as [| x y l l' [H _] _ IH]; simpl; congruence. Qed.

Lemma export_keys_of_structure {B} (rng : list Z)
    (conds : list (string * B)) (res : dict string (dict Z itpc_entry)) :
  Forall2 (fun item cr => fst cr = fst item /\ map fst (snd cr) = rng) conds res ->
  map (fun r => (Condition r, Electrode r)) (export_data res)
  = flat_map (fun c => map (pair c) rng) (map fst conds).
Proof.
  unfold export_data.
  induction 1 as [| item cr conds' res' [Hk Hkeys] _ IH]; [reflexivity|].
  simpl. rewrite map_app, IH. f_equal.
  destruct cr as [c d], item as [c' b]. simpl in *. subst c rng.
  rewrite !map_map. reflexivity.
Qed.

(** The keys of the exported rows, in order. *)
Lemma export_keys w res :
  analyze_itpc self data = (w, inr res) ->
  map (fun r => (Condition r, Electrode r)) (export_data res)
  = flat_map (fun c => map (pair c) (range 1 (num_electrodes self + 1)))
             (map fst (trial_conditions self)).
Proof.
  intros Han.
  assert (exists w0 pre, preprocess_data self data = (w0, inr pre))
    as (w0 & pre & Hpre).
  { unfold analyze_itpc in Han.
    apply bindM_inr in Han as (w1 & pre & _ & Hpre & _). eauto. }
  pose proof (Forall2_compose _ _ _ _ _ (preprocess_structure _ _ Hpre)
                (analyze_structure _ _ _ _ Hpre Han)) as H.
  apply export_keys_of_structure. revert H. apply Forall2_impl.
  intros item cr (cd & [Hk1 Hin1] & [Hk2 Hin2]).
  split; [exact (eq_trans Hk2 Hk1)|].
  transitivity (map fst (snd cd)); [exact (map_fst_Forall2 _ _ _ Hin2)|].
  clear -Hin1. induction Hin1 as [| el ea l l' [H _] _ IH]; simpl; congruence.
Qed.


End ResultStructure.

Section AnalysisTheorems.
Local Open Scope Z_scope.
Local Open Scope string_scope.

Lemma range_length (a b : Z) : List.length (range a b) = Z.to_nat (b - a).
Proof. unfold range. rewrite length_map, length_seq. reflexivity. Qed.

Lemma analysis_example_returns :
  exists w res,
    analyze_itpc two_electrode_analyzer
      [trial 5 1 (VStr "1+0i"); trial 95 2 (VFloat NaN)] = (w, inr res).
Proof.
  destruct (preprocess_returns two_electrode_analyzer
              [trial 5 1 (VStr "1+0i"); trial 95 2 (VFloat NaN)])
    as (w0 & pre & Hpre).
  - intros r [<- | [<- | []]]; reflexivity.
  - eapply analyze_returns; [apply init_conditions_NoDup | exact Hpre].
Qed.



(** The exported table has one row per condition and electrode, empty
    buckets included: the conditions in the order GN, GS, UN, US and under
    each the electrodes 1..num_electrodes in ascending order, that is
    4 * num_electrodes rows. *)
Theorem export_has_one_row_per_bucket path nf ne (data : DataFrame) w res :
  analyze_itpc (init path nf ne) data = (w, inr res) ->
  map (fun r => (Condition r, Electrode r)) (export_data res)
  = flat_map (fun c => map (pair c) (range 1 (ne + 1))) ["GN"; "GS"; "UN"; "US"] /\
  List.length (export_data res) = (4 * Z.to_nat ne)%nat.
Proof.
  intros Han.
  pose proof (export_keys _ (init_conditions_NoDup path nf ne) data w res Han) as H.
  simpl in H. split; [exact H|].
  rewrite <- (length_map (fun r => (Condition r, Electrode r))), H.
  rewrite !length_app, !length_map, range_length. simpl. lia.
Qed.

Lemma export_has_one_row_per_bucket_witness :
  exists w res,
    analyze_itpc two_electrode_analyzer
      [trial 5 1 (VStr "1+0i"); trial 95 2 (VFloat NaN)] = (w, inr res) /\
    map (fun r => (Condition r, Electrode r)) (export_data res)
    = [("GN", 1); ("GN", 2); ("GS", 1); ("GS", 2);
       ("UN", 1); ("UN", 2); ("US", 1); ("US", 2)].
Proof.
  destruct analysis_example_returns as (w & res & Han).
  exists w, res. split; [exact Han|].
  apply (proj1 (export_has_one_row_per_bucket csv_path 10 2 _ w res Han)).
Defined.



End AnalysisTheorems.

(* ===================================================================== *)
(** * [summary_statistics]                                                *)
(* ===================================================================== *)

Section Reductions.
Local Open Scope R_scope.

Lemma fadd_NaN_l x : fadd NaN x = NaN.
Proof. reflexivity. Qed.

Lemma fold_fadd_NaN (l : list pyfloat) : fold_left fadd l NaN = NaN.
Proof. induction l as [| x l IH]; simpl; auto. Qed.

Lemma fold_fadd_In_NaN (l : list pyfloat) :
  forall acc, In NaN l -> fold_left fadd l acc = NaN.
Proof.
  induction l as [| x l IH]; intros acc H; simpl in *; [tauto|].
  destruct H as [-> | H].
  - rewrite fadd_NaN_r. apply fold_fadd_NaN.
  - apply IH. assumption.
Qed.

Lemma fsum_In_NaN (l : list pyfloat) : In NaN l -> fsum l = NaN.
Proof.
  destruct l as [| x l]; simpl; [tauto|].
  intros [-> | H]; [apply fold_fadd_NaN | apply fold_fadd_In_NaN; assumption].
Qed.

Lemma fdiv_NaN_l x : fdiv NaN x = NaN.
Proof. reflexivity. Qed.

Lemma np_mean_In_NaN (l : list pyfloat) : In NaN l -> np_mean l = NaN.
Proof. intros H. unfold np_mean. rewrite fsum_In_NaN by assumption. reflexivity. Qed.


Lemma np_std_In_NaN (l : list pyfloat) : In NaN l -> np_std l = NaN.
Proof.
  intros H. unfold np_std. rewrite np_mean_In_NaN by assumption.
  rewrite fsum_In_NaN; [reflexivity|].
  apply in_map_iff. exists NaN. split; [| assumption]. reflexivity.
Qed.

Lemma np_minimum_NaN_l x : np_minimum NaN x = NaN.
Proof. destruct x as [| [|] | s | r]; reflexivity. Qed.

Lemma np_minimum_NaN_r x : np_minimum x NaN = NaN.
Proof. destruct x as [| [|] | s | r]; reflexivity. Qed.

Lemma np_maximum_NaN_l x : np_maximum NaN x = NaN.
Proof. reflexivity. Qed.

Lemma np_maximum_NaN_r x : np_maximum x NaN = NaN.
Proof. destruct x as [| [|] | s | r]; reflexivity. Qed.

Lemma fold_minimum_NaN (l : list pyfloat) : fold_left np_minimum l NaN = NaN.
Proof.
  induction l as [| x l IH]; simpl; [reflexivity|].
  rewrite np_minimum_NaN_l. exact IH.
Qed.

Lemma fold_maximum_NaN (l : list pyfloat) : fold_left np_maximum l NaN = NaN.
Proof. induction l as [| x l IH]; simpl; auto. Qed.

Lemma fold_minimum_In_NaN (l : list pyfloat) :
  forall acc, In NaN l -> fold_left np_minimum l acc = NaN.
Proof.
  induction l as [| x l IH]; intros acc H; simpl in *; [tauto|].
  destruct H as [-> | H].
  - rewrite np_minimum_NaN_r. apply fold_minimum_NaN.
  - apply IH. assumption.
Qed.

Lemma fold_maximum_In_NaN (l : list pyfloat) :
  forall acc, In NaN l -> fold_left np_maximum l acc = NaN.
Proof.
  induction l as [| x l IH]; intros acc H; simpl in *; [tauto|].
  destruct H as [-> | H].
  - rewrite np_maximum_NaN_r. apply fold_maximum_NaN.
  - apply IH. assumption.
Qed.

Lemma np_min_In_NaN (l : list pyfloat) : In NaN l -> np_min l = inr NaN.
Proof.
  destruct l as [| x l]; simpl; [tauto|].
  intros [-> | H]; unfold ret; f_equal;
    [apply fold_minimum_NaN | apply fold_minimum_In_NaN; assumption].
Qed.

Lemma np_max_In_NaN (l : list pyfloat) : In NaN l -> np_max l = inr NaN.
Proof.
  destruct l as [| x l]; simpl; [tauto|].
  intros [-> | H]; unfold ret; f_equal;
    [apply fold_maximum_NaN | apply fold_maximum_In_NaN; assumption].
Qed.

Lemma np_median_In_NaN (l : list pyfloat) : In NaN l -> np_median l = NaN.
Proof.
  intros H. unfold np_median.
  assert (E : existsb is_nan l = true).
  { apply existsb_exists. exists NaN. auto. }
  rewrite E. reflexivity.
Qed.

(** One NaN among the values makes the five statistics NaN. *)
Lemma condition_statistics_In_NaN (values : list pyfloat) :
  In NaN values ->
  exists st, condition_statistics values = inr st /\ all_nan st.
Proof.
  intros H. unfold condition_statistics.
  rewrite np_min_In_NaN, np_max_In_NaN by assumption. simpl.
  eexists. split; [reflexivity|]. unfold all_nan. simpl.
  rewrite np_mean_In_NaN, np_std_In_NaN, np_median_In_NaN by assumption.
  auto.
Qed.

(** The statistics of a condition raise for no value, and only then. *)
Lemma condition_statistics_empty : condition_statistics [] = inl ValueError.
Proof. reflexivity. Qed.

Lemma condition_statistics_nonempty (x : pyfloat) (t : list pyfloat) :
  exists st, condition_statistics (x :: t) = inr st.
Proof. unfold condition_statistics. simpl. eauto. Qed.

End Reductions.

Section Summary.
Local Open Scope Z_scope.
Local Open Scope string_scope.

Variable self : EEGPhaseAnalysis.
Hypothesis conditions_NoDup : NoDup (map fst (trial_conditions self)).
Variable data : DataFrame.

(** The keys of the results: the conditions, and under each the
    electrodes of the range. *)
Lemma analyze_key_structure w res :
  analyze_itpc self data = (w, inr res) ->
  Forall2 (fun (item : string * (Z * Z)) (cr : string * dict Z itpc_entry) =>
             fst cr = fst item /\
             map fst (snd cr) = range 1 (num_electrodes self + 1))
          (trial_conditions self) res.
Proof.
  intros Han.
  assert (exists w0 pre, preprocess_data self data = (w0, inr pre))
    as (w0 & pre & Hpre).
  { unfold analyze_itpc in Han.
    apply bindM_inr in Han as (w1 & pre & _ & Hpre & _). eauto. }
  pose proof (Forall2_compose _ _ _ _ _
                (preprocess_structure self conditions_NoDup data _ _ Hpre)
                (analyze_structure self conditions_NoDup data _ _ _ _ Hpre Han)) as H.
  revert H. apply Forall2_impl.
  intros item cr (cd & [Hk1 Hin1] & [Hk2 Hin2]).
  split; [exact (eq_trans Hk2 Hk1)|].
  transitivity (map fst (snd cd)); [exact (map_fst_Forall2 _ _ _ Hin2)|].
  clear -Hin1. induction Hin1 as [| el ea l l' [H _] _ IH]; simpl; congruence.
Qed.

Lemma analyze_keys w res :
  analyze_itpc self data = (w, inr res) ->
  map fst res = map fst (trial_conditions self).
Proof.
  intros H. apply analyze_key_structure in H.
  revert H. generalize (trial_conditions self) as conds. clear.
  intros conds H.
  induction H as [| item cr l l' [Hk _] _ IH]; simpl; [reflexivity|].
  f_equal; assumption.
Qed.

Lemma analyze_inner_keys w res c d :
  analyze_itpc self data = (w, inr res) ->
  In (c, d) res ->
  map fst d = range 1 (num_electrodes self + 1).
Proof.
  intros H Hin. apply analyze_key_structure in H.
  destruct (Forall2_In_r _ _ _ (c, d) H Hin) as (item & _ & _ & Hk). exact Hk.
Qed.

Lemma summary_body (d : dict Z itpc_entry) w st :
  liftM (condition_statistics (itpc_values_of d)) = (w, inr st) ->
  condition_statistics (itpc_values_of d) = inr st.
Proof. unfold liftM. intros H. inversion H. reflexivity. Qed.

Lemma summary_of_condition w res w' s c d :
  analyze_itpc self data = (w, inr res) ->
  summary_statistics res = (w', inr s) ->
  In (c, d) res ->
  exists st,
    dict_get String.eqb c s = Some st /\
    condition_statistics (itpc_values_of d) = inr st.
Proof.
  intros Han Hs Hin.
  assert (Hnd : NoDup (map fst res)) by (rewrite (analyze_keys _ _ Han); assumption).
  unfold summary_statistics in Hs.
  apply for_in_stored in Hs; [| apply String.eqb_eq | assumption].
  destruct (stored_In String.eqb String.eqb_eq _ _ _ _ _ Hnd Hs Hin)
    as (st & w1 & Hget & Hb).
  exists st. split; [exact Hget|]. eapply summary_body. exact Hb.
Qed.

Lemma itpc_values_nonempty w res c d :
  analyze_itpc self data = (w, inr res) ->
  In (c, d) res ->
  1 <= num_electrodes self ->
  exists x t, itpc_values_of d = x :: t.
Proof.
  intros Han Hin Hne.
  pose proof (analyze_inner_keys _ _ _ _ Han Hin) as Hk.
  destruct d as [| e d].
  - simpl in Hk. symmetry in Hk. apply (f_equal (@List.length Z)) in Hk.
    rewrite range_length in Hk. simpl in Hk. lia.
  - simpl. eauto.
Qed.

Lemma itpc_values_empty w res c d :
  analyze_itpc self data = (w, inr res) ->
  In (c, d) res ->
  num_electrodes self <= 0 ->
  d = [].
Proof.
  intros Han Hin Hne.
  pose proof (analyze_inner_keys _ _ _ _ Han Hin) as Hk.
  apply (f_equal (@List.length Z)) in Hk.
  rewrite length_map, range_length in Hk.
  apply length_zero_iff_nil. lia.
Qed.

Lemma summary_returns w res :
  analyze_itpc self data = (w, inr res) ->
  1 <= num_electrodes self ->
  exists w' s, summary_statistics res = (w', inr s) /\
               map fst s = map fst (trial_conditions self).
Proof.
  intros Han Hne.
  assert (Hnd : NoDup (map fst res)) by (rewrite (analyze_keys _ _ Han); assumption).
  destruct (for_in_returns String.eqb fst
              (fun item : string * dict Z itpc_entry =>
                 liftM (condition_statistics (itpc_values_of (snd item)))) res)
    with (d := @nil (string * condition_summary)) as (w' & s & Hs).
  - intros [c d] Hin. simpl.
    destruct (itpc_values_nonempty _ _ _ _ Han Hin Hne) as (x & t & ->).
    destruct (condition_statistics_nonempty x t) as (st & ->).
    unfold liftM. eauto.
  - exists w', s. split; [exact Hs|].
    apply for_in_stored in Hs; [| apply String.eqb_eq | assumption].
    rewrite (stored_keys _ _ _ _ Hs). apply (analyze_keys _ _ Han).
Qed.

Lemma summary_raises w res :
  analyze_itpc self data = (w, inr res) ->
  trial_conditions self <> [] ->
  num_electrodes self <= 0 ->
  snd (summary_statistics res) = inl ValueError.
Proof.
  intros Han Hconds Hne.
  destruct res as [| [c d] res'].
  - apply analyze_keys in Han. simpl in Han.
    destruct (trial_conditions self); [congruence | discriminate].
  - rewrite (itpc_values_empty _ _ c d Han (or_introl eq_refl) Hne).
    reflexivity.
Qed.

End Summary.

Section UnitStatistics.
Local Open Scope R_scope.

















End UnitStatistics.

Section SummaryTheorems.
Local Open Scope Z_scope.
Local Open Scope string_scope.




(** Without electrodes every condition has an empty array of values and
    [np.min] raises: [summary_statistics] fails with [ValueError] on the
    results of an analysis with [num_electrodes <= 0]. *)
Theorem summary_statistics_without_electrodes path nf ne (data : DataFrame) w res :
  ne <= 0 ->
  analyze_itpc (init path nf ne) data = (w, inr res) ->
  snd (summary_statistics res) = inl ValueError.
Proof.
  intros Hne Han.
  eapply summary_raises;
    [apply init_conditions_NoDup | exact Han | discriminate | exact Hne].
Qed.

Lemma summary_statistics_without_electrodes_witness :
  exists w res,
    analyze_itpc no_electrode_analyzer [trial 5 1 (VStr "1+0i")] = (w, inr res) /\
    snd (summary_statistics res) = inl ValueError.
Proof.
  exists [], [("GN", []); ("GS", []); ("UN", []); ("US", [])].
  split; [vm_compute; reflexivity|].
  apply (summary_statistics_without_electrodes csv_path 58 0
           [trial 5 1 (VStr "1+0i")] []); [lia | vm_compute; reflexivity].
Defined.

(** With at least one electrode [summary_statistics] returns on the
    results of an analysis, with one entry per condition in the order GN,
    GS, UN, US. *)
Theorem summary_statistics_has_one_entry_per_condition
    path nf ne (data : DataFrame) w res :
  1 <= ne ->
  analyze_itpc (init path nf ne) data = (w, inr res) ->
  exists w' s,
    summary_statistics res = (w', inr s) /\
    map fst s = ["GN"; "GS"; "UN"; "US"].
Proof.
  intros Hne Han.
  exact (summary_returns _ (init_conditions_NoDup path nf ne) data w res Han Hne).
Qed.

Lemma summary_statistics_has_one_entry_per_condition_witness :
  exists w res w' s,
    analyze_itpc two_electrode_analyzer
      [trial 5 1 (VStr "1+0i"); trial 95 2 (VFloat NaN)] = (w, inr res) /\
    summary_statistics res = (w', inr s) /\
    map fst s = ["GN"; "GS"; "UN"; "US"].
Proof.
  destruct analysis_example_returns as (w & res & Han).
  destruct (summary_statistics_has_one_entry_per_condition csv_path 10 2
              [trial 5 1 (VStr "1+0i"); trial 95 2 (VFloat NaN)] w res)
    as (w' & s & Hs & Hk); [lia | exact Han |].
  exists w, res, w', s. auto.
Defined.

(** One empty bucket makes the five statistics of its condition NaN: the
    scalar NaN stored for the bucket enters the array of values as it
    is. *)
Theorem empty_bucket_makes_summary_nan
    path nf ne (data : DataFrame) w res w' s (c : string) (e : Z) :
  analyze_itpc (init path nf ne) data = (w, inr res) ->
  summary_statistics res = (w', inr s) ->
  bucket_rows (init path nf ne) data c e = Some [] ->
  exists st, dict_get String.eqb c s = Some st /\ all_nan st.
Proof.
  intros Han Hs Hrows.
  destruct (empty_bucket_scalar_nan _ (init_conditions_NoDup path nf ne)
              data w res c e Han Hrows) as (entry & Hget & Hitpc & _).
  unfold get2 in Hget.
  destruct (dict_get String.eqb c res) as [d |] eqn:Ec; [| discriminate].
  apply (dict_get_In String.eqb String.eqb_eq) in Ec.
  apply (dict_get_In Z.eqb Z.eqb_eq) in Hget.
  destruct (summary_of_condition _ (init_conditions_NoDup path nf ne)
              data w res w' s c d Han Hs Ec) as (st & Hst & Hcs).
  exists st. split; [exact Hst|].
  destruct (condition_statistics_In_NaN (itpc_values_of d)) as (st' & Hcs' & Hnan).
  - unfold itpc_values_of. apply in_map_iff. exists (e, entry).
    split; [| assumption]. unfold electrode_value. simpl. rewrite Hitpc. reflexivity.
  - rewrite Hcs in Hcs'. inversion Hcs'. assumption.
Qed.

Lemma empty_bucket_makes_summary_nan_witness :
  exists w res w' s st,
    analyze_itpc two_electrode_analyzer
      [trial 5 1 (VStr "1+0i"); trial 95 2 (VFloat NaN)] = (w, inr res) /\
    summary_statistics res = (w', inr s) /\
    dict_get String.eqb "GN" s = Some st /\ all_nan st.
Proof.
  destruct analysis_example_returns as (w & res & Han).
  destruct (summary_returns _ (init_conditions_NoDup csv_path 10 2)
              [trial 5 1 (VStr "1+0i"); trial 95 2 (VFloat NaN)] w res Han)
    as (w' & s & Hs & _); [simpl; lia|].
  destruct (empty_bucket_makes_summary_nan csv_path 10 2
              [trial 5 1 (VStr "1+0i"); trial 95 2 (VFloat NaN)] w res w' s "GN" 2 Han Hs)
    as (st & Hst & Hnan); [reflexivity|].
  exists w, res, w', s, st. auto.
Defined.



End SummaryTheorems.
